(** * tun2: two cross-connected TUN interfaces

    A shallow embedding of [tun2.c] and the properties of its interface
    allocator ([tun_alloc]) and of its forwarding loop ([main]).

    The program talks to the kernel through system calls and to the operator
    through stdio.  Both are made explicit: the kernel is an interface
    ([Kernel]) whose replies the program cannot influence, and every call the
    program makes is appended, in order, to a trace of [Event]s.  Undefined
    behaviour of the C code (an unterminated string handed to [strcpy], a
    descriptor outside an [fd_set]) is the [None] of the monad. *)

From Stdlib Require Import ZArith List String Ascii Strings.Byte Bool Lia.
Import ListNotations.
Open Scope Z_scope.

(** ** Constants of the system headers

    [tun2.c] takes these from <linux/if.h>, <linux/if_tun.h>, <fcntl.h> and
    <sys/select.h>; the values are those of Linux. *)
Module Linux.
Definition IFNAMSIZ : nat := 16.
Definition IFF_TUN : Z := 0x0001.
Definition IFF_NO_PI : Z := 0x1000.
Definition O_RDWR : Z := 2.
Definition TUNSETIFF : Z := 0x400454ca.
Definition FD_SETSIZE : Z := 1024.
End Linux.
Import Linux.

(** ** Byte buffers and the string functions of <string.h> *)

Definition NUL : byte := x00.

Definition bytes (s : string) : list byte := list_byte_of_string s.

(** [char a[n] = "s"]: the characters of [s], the rest of the array zero. *)
Definition char_array (n : nat) (s : string) : list byte :=
  firstn n (bytes s ++ repeat NUL n).

(** The string a buffer holds: its bytes before the first NUL. *)
Fixpoint c_str (b : list byte) : list byte :=
  match b with
  | [] => []
  | c :: t => if Byte.eqb c NUL then [] else c :: c_str t
  end.

(** The [n] bytes [strncpy(_, src, n)] stores: the characters of [src] up to
    its terminator, then NULs; [None] when [src] ends (as an object) before
    either a NUL or [n] bytes were seen. *)
Fixpoint strncpy_bytes (src : list byte) (n : nat) : option (list byte) :=
  match n with
  | O => Some []
  | S n' =>
      match src with
      | [] => None
      | c :: src' =>
          if Byte.eqb c NUL then Some (repeat NUL (S n'))
          else option_map (cons c) (strncpy_bytes src' n')
      end
  end.

Definition strncpy (dst src : list byte) (n : nat) : option (list byte) :=
  match strncpy_bytes src n with
  | Some l =>
      if (n <=? List.length dst)%nat then Some (l ++ skipn n dst) else None
  | None => None
  end.

(** The bytes [strcpy(_, src)] stores, terminator included; [None] when [src]
    holds no NUL. *)
Fixpoint strcpy_bytes (src : list byte) : option (list byte) :=
  match src with
  | [] => None
  | c :: src' =>
      if Byte.eqb c NUL then Some [NUL]
      else option_map (cons c) (strcpy_bytes src')
  end.

Definition strcpy (dst src : list byte) : option (list byte) :=
  match strcpy_bytes src with
  | Some l =>
      if (List.length l <=? List.length dst)%nat
      then Some (l ++ skipn (List.length l) dst) else None
  | None => None
  end.

(** ** struct ifreq, as far as [tun_alloc] uses it *)

Record ifreq : Type := mk_ifreq {
  ifr_name : list byte;
  ifr_flags : Z
}.

(** [memset(&ifr, 0, sizeof(ifr))] *)
Definition ifreq_zero : ifreq :=
  {| ifr_name := repeat NUL IFNAMSIZ; ifr_flags := 0 |}.

Definition set_ifr_flags (fl : Z) (i : ifreq) : ifreq :=
  {| ifr_name := ifr_name i; ifr_flags := fl |}.

Definition set_ifr_name (nm : list byte) (i : ifreq) : ifreq :=
  {| ifr_name := nm; ifr_flags := ifr_flags i |}.

(** ** fd_set: a bit per descriptor *)

Definition fd_set := Z.

Definition FD_ZERO : fd_set := 0.

Definition fd_in_range (fd : Z) : bool := (0 <=? fd) && (fd <? FD_SETSIZE).

(** [FD_SET] on a descriptor outside [0, FD_SETSIZE) is undefined. *)
Definition FD_SET (fd : Z) (s : fd_set) : option fd_set :=
  if fd_in_range fd then Some (Z.lor s (Z.shiftl 1 fd)) else None.

Definition FD_ISSET (fd : Z) (s : fd_set) : bool := Z.testbit s fd.

(** ** What the program does to the outside world *)

Inductive stream : Type := stdout | stderr.

Inductive printf_arg : Type :=
| ArgInt (n : Z)
| ArgStr (s : list byte).

Inductive Event : Type :=
| EOpen (path : string) (flags : Z) (ret : Z)
| EIoctl (fd : Z) (request : Z) (arg : ifreq) (ret : Z)
| EClose (fd : Z)
| ESelect (nfds : Z) (readfds : fd_set) (ret : Z) (ready : fd_set)
| ERead (fd : Z) (count : Z) (ret : Z) (data : list byte)
| EWrite (fd : Z) (data : list byte) (ret : Z)
| EPrintf (fmt : string) (args : list printf_arg)
| EPerror (s : string)
| EFflush (f : stream).

(** ** The kernel, seen from the program

    Each system call maps the kernel's state to a reply and a new state.
    [os_read] replies with the packet that is waiting ([None]: the call
    fails); everything else replies with the call's return value. *)
Record Kernel : Type := {
  os_state : Type;
  os_open : string -> Z -> os_state -> Z * os_state;
  os_ioctl : Z -> Z -> ifreq -> os_state -> (Z * ifreq) * os_state;
  os_close : Z -> os_state -> Z * os_state;
  os_select : Z -> fd_set -> os_state -> (Z * fd_set) * os_state;
  os_read : Z -> Z -> os_state -> option (list byte) * os_state;
  os_write : Z -> list byte -> os_state -> Z * os_state
}.

(** How [main] stands when the model stops looking: it has returned, or it is
    still in its loop. *)
Inductive status : Type :=
| Exited (code : Z)
| Running.

(** ** The monad: state, and [None] for undefined behaviour *)

Definition M (W A : Type) : Type := W -> option (A * W).

Definition ret {W A} (a : A) : M W A := fun w => Some (a, w).

Definition bind {W A B} (m : M W A) (k : A -> M W B) : M W B :=
  fun w => match m w with
           | Some (a, w') => k a w'
           | None => None
           end.

Definition undefined {W A} : M W A := fun _ => None.

Definition lift {W A} (o : option A) : M W A :=
  match o with Some a => ret a | None => undefined end.

Notation "x <- m ;; k" := (bind m (fun x => k))
  (at level 61, m at next level, right associativity).
Notation "' p <- m ;; k" := (bind m (fun x => match x with p => k end))
  (at level 61, p pattern, m at next level, right associativity).
Notation "m ;;; k" := (bind m (fun _ => k))
  (at level 61, right associativity).

Section Program.

Context (K : Kernel).

(** The kernel's state and what the program has done so far. *)
Record World : Type := mk_world {
  os : os_state K;
  trace : list Event
}.

Definition Prog (A : Type) : Type := M World A.

Definition emit (e : Event) : Prog unit :=
  fun w => Some (tt, {| os := os w; trace := trace w ++ [e] |}).

(** A call into the kernel: take the reply, keep the new state. *)
Definition syscall {A} (f : os_state K -> A * os_state K) : Prog A :=
  fun w => let (a, o) := f (os w) in Some (a, {| os := o; trace := trace w |}).

(** *** libc *)

Definition sys_open (path : string) (flags : Z) : Prog Z :=
  r <- syscall (os_open K path flags) ;;
  emit (EOpen path flags r) ;;;
  ret r.

Definition sys_ioctl (fd request : Z) (arg : ifreq) : Prog (Z * ifreq) :=
  ' (r, arg') <- syscall (os_ioctl K fd request arg) ;;
  emit (EIoctl fd request arg r) ;;;
  ret (r, arg').

Definition sys_close (fd : Z) : Prog Z :=
  r <- syscall (os_close K fd) ;;
  emit (EClose fd) ;;;
  ret r.

Definition sys_select (nfds : Z) (readfds : fd_set) : Prog (Z * fd_set) :=
  ' (r, ready) <- syscall (os_select K nfds readfds) ;;
  emit (ESelect nfds readfds r ready) ;;;
  ret (r, ready).

(** [read(fd, buf, count)]: at most [count] bytes of the waiting packet are
    stored at the start of [buf] and their number is returned; -1 when the
    call fails, [buf] untouched. *)
Definition sys_read (fd : Z) (buf : list byte) (count : Z)
  : Prog (Z * list byte) :=
  reply <- syscall (os_read K fd count) ;;
  match reply with
  | None =>
      emit (ERead fd count (-1) []) ;;;
      ret (-1, buf)
  | Some pkt =>
      let d := firstn (Z.to_nat count) pkt in
      emit (ERead fd count (Z.of_nat (List.length d)) d) ;;;
      ret (Z.of_nat (List.length d), d ++ skipn (List.length d) buf)
  end.

(** [write(fd, buf, len)]: the first [len] bytes of [buf] go to the kernel. *)
Definition sys_write (fd : Z) (buf : list byte) (len : Z) : Prog Z :=
  let d := firstn (Z.to_nat len) buf in
  r <- syscall (os_write K fd d) ;;
  emit (EWrite fd d r) ;;;
  ret r.

Definition perror (s : string) : Prog unit := emit (EPerror s).

Definition printf (fmt : string) (args : list printf_arg) : Prog unit :=
  emit (EPrintf fmt args).

Definition fflush (f : stream) : Prog unit := emit (EFflush f).

(** ** tun_alloc

    The caller's buffer [dev] comes in and goes out again next to the
    returned descriptor. *)

(** Lines 82-86: the request built from [dev]. *)
Definition tun_request (dev : list byte) : option ifreq :=
  let ifr := ifreq_zero in
  let ifr := set_ifr_flags (Z.lor IFF_TUN IFF_NO_PI) ifr in
  match dev with
  | [] => None
  | c :: _ =>
      if negb (Byte.eqb c NUL) then
        match strncpy (ifr_name ifr) dev IFNAMSIZ with
        | Some nm => Some (set_ifr_name nm ifr)
        | None => None
        end
      else Some ifr
  end.

Definition tun_alloc (dev : list byte) : Prog (Z * list byte) :=
  fd <- sys_open "/dev/net/tun" O_RDWR ;;
  if fd <? 0 then
    perror "open" ;;;
    ret (-1, dev)
  else
    ifr <- lift (tun_request dev) ;;
    ' (r, ifr) <- sys_ioctl fd TUNSETIFF ifr ;;
    if r <? 0 then
      perror "ioctl" ;;;
      sys_close fd ;;;
      ret (-1, dev)
    else
      dev <- lift (strcpy dev (ifr_name ifr)) ;;
      ret (fd, dev).

(** ** main *)

Definition BUFSIZE : Z := 16384.

Definition newline : string := String "010"%char EmptyString.

Definition read_trace : string := ("read %d from fd %d" ++ newline)%string.

Definition created_trace : string := ("Created: %s" ++ newline)%string.

(** Lines 134-143 and, with the descriptors swapped, 145-154: one direction
    of the cable.  [len] is an [ssize_t] printed with [%d]; it is at most
    16384 here, where the two agree. *)
Definition relay (src dst : Z) (buf : list byte) : Prog (list byte) :=
  ' (len, buf) <- sys_read src buf BUFSIZE ;;
  if len <? 0 then
    perror "read" ;;;
    ret buf
  else
    printf read_trace [ArgInt len; ArgInt src] ;;;
    r <- sys_write dst buf len ;;
    (if r <? 0 then perror "write" else ret tt) ;;;
    ret buf.

(** Lines 116-154: the body of [while (1)]. *)
Definition iteration (fd1 fd2 : Z) (buf : list byte) : Prog (list byte) :=
  fflush stdout ;;;
  fflush stderr ;;;
  fds <- lift (FD_SET fd1 FD_ZERO) ;;
  fds <- lift (FD_SET fd2 fds) ;;
  let nfds := (if fd2 >? fd1 then fd2 else fd1) + 1 in
  ' (nfds, fds) <- sys_select nfds fds ;;
  if nfds <? 0 then
    perror "select" ;;;
    ret buf
  else
    buf <- (if FD_ISSET fd1 fds then relay fd1 fd2 buf else ret buf) ;;
    (if FD_ISSET fd2 fds then relay fd2 fd1 buf else ret buf).

(** [while (1)] has no way out: [n] turns of the loop are [n] iterations. *)
Fixpoint forward_loop (n : nat) (fd1 fd2 : Z) (buf : list byte)
  : Prog (list byte) :=
  match n with
  | O => ret buf
  | S n' =>
      buf <- iteration fd1 fd2 buf ;;
      forward_loop n' fd1 fd2 buf
  end.

(** [main], watched for [fuel] iterations of its loop.  [buf0] is what the
    stack holds where [buf] is placed. *)
Definition main (fuel : nat) (buf0 : list byte) : Prog status :=
  let dev1 := char_array IFNAMSIZ "tun%d" in
  let dev2 := char_array IFNAMSIZ "tun%d" in
  ' (fd1, dev1) <- tun_alloc dev1 ;;
  if fd1 <? 0 then ret (Exited 1)
  else
    printf created_trace [ArgStr (c_str dev1)] ;;;
    ' (fd2, dev2) <- tun_alloc dev2 ;;
    if fd2 <? 0 then ret (Exited 1)
    else
      printf created_trace [ArgStr (c_str dev2)] ;;;
      forward_loop fuel fd1 fd2 buf0 ;;;
      ret Running.

(** [m], started in [w], returns [a] in [w'] and has put [evs] on the trace. *)
Definition runs {A} (m : Prog A) (w : World) (a : A) (evs : list Event)
    (w' : World) : Prop :=
  m w = Some (a, w') /\ trace w' = trace w ++ evs.

End Program.

Arguments os {K} w.
Arguments trace {K} w.
Arguments mk_world {K} os trace.
Arguments emit {K} e w.
Arguments tun_alloc {K} dev w.
Arguments relay {K} src dst buf w.
Arguments iteration {K} fd1 fd2 buf w.
Arguments forward_loop {K} n fd1 fd2 buf w.
Arguments main {K} fuel buf0 w.
Arguments runs {K A} m w a evs w'.
Arguments syscall {K A} f w.
Arguments sys_open {K} path flags w.
Arguments sys_ioctl {K} fd request arg w.
Arguments sys_close {K} fd w.
Arguments sys_select {K} nfds readfds w.
Arguments sys_read {K} fd buf count w.
Arguments sys_write {K} fd buf len w.
Arguments perror {K} s w.
Arguments printf {K} fmt args w.
Arguments fflush {K} f w.

(** ** A kernel that answers from a script

    Its state is the list of replies still to come; a call takes the next
    one, and fails when the script has run out or holds another kind of
    reply. *)
Module Script.

Inductive reply : Type :=
| RInt (r : Z)
| RIoctl (r : Z) (name : list byte)
| RSelect (r : Z) (ready : fd_set)
| RPacket (p : list byte)
| RFail.

Definition take_int (s : list reply) : Z * list reply :=
  match s with
  | RInt r :: t => (r, t)
  | _ => (-1, s)
  end.

Definition kernel : Kernel := {|
  os_state := list reply;
  os_open := fun _ _ s => take_int s;
  os_ioctl := fun _ _ arg s =>
    match s with
    | RIoctl r nm :: t => ((r, set_ifr_name nm arg), t)
    | _ => ((-1, arg), s)
    end;
  os_close := fun _ s => (0, s);
  os_select := fun _ fds s =>
    match s with
    | RSelect r ready :: t => ((r, ready), t)
    | _ => ((-1, fds), s)
    end;
  os_read := fun _ _ s =>
    match s with
    | RPacket p :: t => (Some p, t)
    | RFail :: t => (None, t)
    | _ => (None, s)
    end;
  os_write := fun _ _ s => take_int s
|}.

Definition boot (s : list reply) : World kernel :=
  {| os := s : os_state kernel; trace := [] |}.

(** What a run leaves on the trace; [None] when it is undefined. *)
Definition events {A} (m : Prog kernel A) (s : list reply)
  : option (A * list Event) :=
  match m (boot s) with
  | Some (a, w) => Some (a, trace w)
  | None => None
  end.

End Script.

(** ** Reading a trace *)

Definition is_select (e : Event) : bool :=
  match e with ESelect _ _ _ _ => true | _ => false end.

Definition is_write (e : Event) : bool :=
  match e with EWrite _ _ _ => true | _ => false end.


Definition is_printf (e : Event) : bool :=
  match e with EPrintf _ _ => true | _ => false end.

Definition is_read_from (fd : Z) (e : Event) : bool :=
  match e with ERead fd' _ _ _ => fd' =? fd | _ => false end.

Definition count (p : Event -> bool) (evs : list Event) : nat :=
  List.length (filter p evs).

(** The handle at the other end of the cable. *)
Definition peer (fd1 fd2 x : Z) : Z := if x =? fd1 then fd2 else fd1.

(** What may follow once a direction is done with: nothing more was seen, the
    other direction's read, or the next turn of the loop. *)
Definition moves_on (fd2 : Z) (post : list Event) : Prop :=
  match post with
  | [] => True
  | e :: _ => e = EFflush stdout \/ exists c len d, e = ERead fd2 c len d
  end.

(** The arguments [main] hands to [select] (lines 123-126). *)
Definition watched (fd1 fd2 : Z) : fd_set :=
  Z.lor (Z.lor FD_ZERO (Z.shiftl 1 fd1)) (Z.shiftl 1 fd2).

Definition nfds_of (fd1 fd2 : Z) : Z := (if fd2 >? fd1 then fd2 else fd1) + 1.

(** The events of one direction of the cable, served once: a failed read and
    its complaint; or a read, its trace line and the write of what was read,
    with a complaint when the write fails. *)
Inductive relay_events (src dst : Z) : list Event -> Prop :=
| relay_read_failed :
    relay_events src dst [ERead src BUFSIZE (-1) []; EPerror "read"]
| relay_written data r :
    Z.of_nat (List.length data) <= BUFSIZE -> 0 <= r ->
    relay_events src dst
      [ERead src BUFSIZE (Z.of_nat (List.length data)) data;
       EPrintf read_trace [ArgInt (Z.of_nat (List.length data)); ArgInt src];
       EWrite dst data r]
| relay_write_failed data r :
    Z.of_nat (List.length data) <= BUFSIZE -> r < 0 ->
    relay_events src dst
      [ERead src BUFSIZE (Z.of_nat (List.length data)) data;
       EPrintf read_trace [ArgInt (Z.of_nat (List.length data)); ArgInt src];
       EWrite dst data r;
       EPerror "write"].

(** The events of one turn of the loop. *)
Inductive iteration_events (fd1 fd2 : Z) : list Event -> Prop :=
| iteration_select_failed r ready :
    r < 0 ->
    iteration_events fd1 fd2
      [EFflush stdout; EFflush stderr;
       ESelect (nfds_of fd1 fd2) (watched fd1 fd2) r ready;
       EPerror "select"]
| iteration_served r ready a b :
    0 <= r ->
    (if FD_ISSET fd1 ready then relay_events fd1 fd2 a else a = []) ->
    (if FD_ISSET fd2 ready then relay_events fd2 fd1 b else b = []) ->
    iteration_events fd1 fd2
      ([EFflush stdout; EFflush stderr;
        ESelect (nfds_of fd1 fd2) (watched fd1 fd2) r ready] ++ a ++ b).

(** The events of [n] turns. *)
Inductive loop_events (fd1 fd2 : Z) : nat -> list Event -> Prop :=
| loop_events_done : loop_events fd1 fd2 O []
| loop_events_turn n it rest :
    iteration_events fd1 fd2 it ->
    loop_events fd1 fd2 n rest ->
    loop_events fd1 fd2 (S n) (it ++ rest).

(** The events [tun_alloc] can leave. *)
Definition alloc_event (e : Event) : bool :=
  match e with
  | EOpen _ _ _ | EIoctl _ _ _ _ | EClose _ | EPerror _ => true
  | _ => false
  end.

(** [char dev1[IFNAMSIZ] = "tun%d"] *)
Definition tun_template : list byte := char_array IFNAMSIZ "tun%d".

(** ** Startup *)

Definition loop_event (e : Event) : bool :=
  match e with
  | ESelect _ _ _ _ | ERead _ _ _ _ | EWrite _ _ _ | EFflush _ => true
  | _ => false
  end.

Definition tun_path : string := "/dev/net/tun".

Section Startup.

Context {K : Kernel}.

(** The world once [printf("Created: %s\n", dev)] is done. *)
Definition announce (dev : list byte) (w : World K) : World K :=
  mk_world (os w) (trace w ++ [EPrintf created_trace [ArgStr (c_str dev)]]).

(** The two ways an allocation fails, named as in the error taxonomy, in
    terms of what the kernel answers in [w]. *)
Inductive alloc_error : Type := DeviceOpenError | InterfaceConfigError.

Inductive alloc_fails (dev : list byte) (w : World K) : alloc_error -> Prop :=
| open_refused fd o :
    os_open K tun_path O_RDWR (os w) = (fd, o) -> fd < 0 ->
    alloc_fails dev w DeviceOpenError
| config_refused fd o ifr r ifr' o' :
    os_open K tun_path O_RDWR (os w) = (fd, o) -> 0 <= fd ->
    tun_request dev = Some ifr ->
    os_ioctl K fd TUNSETIFF ifr o = ((r, ifr'), o') -> r < 0 ->
    alloc_fails dev w InterfaceConfigError.

(** Startup fails from [w] and leaves [w']: the first allocation fails, or
    the first succeeds and the second fails. *)
Inductive startup_fails (w : World K) : World K -> Prop :=
| first_allocation_fails fd1 dev1 w1 :
    tun_alloc tun_template w = Some ((fd1, dev1), w1) -> fd1 < 0 ->
    startup_fails w w1
| second_allocation_fails fd1 dev1 w1 fd2 dev2 w2 :
    tun_alloc tun_template w = Some ((fd1, dev1), w1) -> 0 <= fd1 ->
    tun_alloc tun_template (announce dev1 w1) = Some ((fd2, dev2), w2) ->
    fd2 < 0 ->
    startup_fails w w2.

End Startup.

(** ** The specification's words, on a trace *)

(** The handle [fd] has been released. *)
Definition released (fd : Z) (evs : list Event) : Prop := In (EClose fd) evs.



(** Every attempted write has a diagnostic line naming its handle and its
    byte count. *)
Definition writes_traced (evs : list Event) : Prop :=
  forall fd data r,
    In (EWrite fd data r) evs ->
    exists fmt args,
      In (EPrintf fmt args) evs /\
      In (ArgInt fd) args /\
      In (ArgInt (Z.of_nat (List.length data))) args.

(** ** Sample runs *)

Definition tun0 : list byte := char_array IFNAMSIZ "tun0".

(** Bits 3 and 4: both handles of the samples are ready. *)
Definition both_ready : fd_set := 24.

(** Bit 3: only the first handle is ready. *)
Definition first_ready : fd_set := 8.

Definition packet : list byte := [x45; x00; x00; x14].

(** The request [tun_alloc] makes for the name "tun%d". *)
Definition template_request : ifreq :=
  {| ifr_name := tun_template; ifr_flags := 0x1001 |}.

(** Startup: the device does not open. *)
Definition open_refused_script : list Script.reply := [Script.RInt (-1)].

(** Startup: the device opens as 3, the request is refused. *)
Definition config_refused_script : list Script.reply :=
  [Script.RInt 3; Script.RIoctl (-1) tun_template].

(** Startup: the device opens as 3 and becomes tun0. *)
Definition configured_script : list Script.reply :=
  [Script.RInt 3; Script.RIoctl 0 tun0].

(** Startup: tun0 on handle 3, then the device does not open again. *)
Definition second_open_refused_script : list Script.reply :=
  [Script.RInt 3; Script.RIoctl 0 tun0; Script.RInt (-1)].

(** Startup: tun0 on handle 3, then the request on handle 4 is refused. *)
Definition second_config_refused_script : list Script.reply :=
  [Script.RInt 3; Script.RIoctl 0 tun0; Script.RInt 4;
   Script.RIoctl (-1) tun_template].

(** The loop: two turns with traffic both ways, the last packet empty. *)
Definition two_way_script : list Script.reply :=
  [Script.RSelect 2 both_ready;
   Script.RPacket packet; Script.RInt 4;
   Script.RPacket [x60]; Script.RInt 1;
   Script.RSelect 1 first_ready;
   Script.RPacket []; Script.RInt 0].



(** The loop: two bytes read and written. *)
Definition one_packet_script : list Script.reply :=
  [Script.RSelect 1 first_ready; Script.RPacket [x45; x00]; Script.RInt 2].

(** The loop, four turns: the wait fails, a read fails, a write fails, and a
    turn without trouble. *)
Definition troubled_script : list Script.reply :=
  [Script.RSelect (-1) 0;
   Script.RSelect 1 first_ready; Script.RFail;
   Script.RSelect 1 first_ready; Script.RPacket packet; Script.RInt (-1);
   Script.RSelect 1 first_ready; Script.RPacket packet; Script.RInt 4].

Definition tun1 : list byte := char_array IFNAMSIZ "tun1".

(** Startup and loop: tun0 on handle 3, tun1 on handle 4, then two turns
    with traffic both ways. *)
Definition both_up_script : list Script.reply :=
  [Script.RInt 3; Script.RIoctl 0 tun0; Script.RInt 4; Script.RIoctl 0 tun1]
    ++ two_way_script.

(** A caller's buffer of five bytes that holds "ab", the name "ab0" as the
    kernel writes it into the sixteen bytes of the request, and a startup in
    which that is the kernel's answer. *)
Definition short_dev : list byte := char_array 5 "ab".

Definition short_name : list byte := char_array IFNAMSIZ "ab0".

Definition short_script : list Script.reply :=
  [Script.RInt 3; Script.RIoctl 0 short_name].

(** ** More ways to read a trace *)

(** A read that brought something, be it zero bytes. *)
Definition is_read_ok (e : Event) : bool :=
  match e with ERead _ _ r _ => 0 <=? r | _ => false end.

Definition is_open (e : Event) : bool :=
  match e with EOpen _ _ _ => true | _ => false end.

Definition is_close (e : Event) : bool :=
  match e with EClose _ => true | _ => false end.

(** An event that leaves the set of open descriptors alone and, when it is a
    read or a write, is on one of the two handles. *)
Definition on_handles (fd1 fd2 : Z) (e : Event) : bool :=
  match e with
  | ERead x _ _ _ => (x =? fd1) || (x =? fd2)
  | EWrite y _ _ => (y =? fd1) || (y =? fd2)
  | EOpen _ _ _ | EIoctl _ _ _ _ | EClose _ => false
  | ESelect _ _ _ _ | EPrintf _ _ | EPerror _ | EFflush _ => true
  end.

(** ** One turn of the loop, piece by piece *)

Definition is_write_to (fd : Z) (e : Event) : bool :=
  match e with EWrite fd' _ _ => fd' =? fd | _ => false end.

(** Lines 120-128: what a turn does up to the return of [select]. *)
Definition wake (fd1 fd2 r : Z) (ready : fd_set) : list Event :=
  [EFflush stdout; EFflush stderr;
   ESelect (nfds_of fd1 fd2) (watched fd1 fd2) r ready].

(** A direction whose read brought [data] and whose write returned [rw]. *)
Definition forwarded (src dst : Z) (data : list byte) (rw : Z) : list Event :=
  [ERead src BUFSIZE (Z.of_nat (List.length data)) data;
   EPrintf read_trace [ArgInt (Z.of_nat (List.length data)); ArgInt src];
   EWrite dst data rw]
    ++ (if rw <? 0 then [EPerror "write"] else []).

(** A direction whose read failed. *)
Definition read_refused (src : Z) : list Event :=
  [ERead src BUFSIZE (-1) []; EPerror "read"].

Section Turn.

Context {K : Kernel}.

(** The world in which [select] has just returned [(r, ready)] and left the
    kernel in state [o]: the trace has grown by the two flushes and the
    wait. *)
Definition after_select (fd1 fd2 r : Z) (ready : fd_set) (o : os_state K)
    (w : World K) : World K :=
  mk_world o
    (((trace w ++ [EFflush stdout]) ++ [EFflush stderr]) ++
     [ESelect (nfds_of fd1 fd2) (watched fd1 fd2) r ready]).

(** Lines 134 and 145: a direction is served when its handle is in the set
    [select] left. *)
Definition serve (ready : fd_set) (src dst : Z) (buf : list byte)
  : Prog K (list byte) :=
  if FD_ISSET src ready then relay src dst buf else ret buf.

(** [turn] is what the loop does in its first turn from [w], and the loop
    goes on from there: [n] more turns follow, one wait each. *)
Definition turn_of_loop (n : nat) (fd1 fd2 : Z) (buf : list byte)
    (w : World K) (turn : list Event) : Prop :=
  exists buf1 w1 bufn rest wn,
    runs (iteration fd1 fd2 buf) w buf1 turn w1 /\
    runs (forward_loop n fd1 fd2 buf1) w1 bufn rest wn /\
    count is_select rest = n /\
    runs (forward_loop (S n) fd1 fd2 buf) w bufn (turn ++ rest) wn.

End Turn.

(** * Properties *)

(** ** Lists *)

Lemma firstn_length_app {A} (d l : list A) :
  firstn (List.length d) (d ++ l) = d.
Proof.
  induction d as [|x d IH]; simpl.
  - reflexivity.
  - now rewrite IH.
Qed.

(** Where an element of [a ++ b] sits: in [a] or in [b]. *)
Lemma app_eq_split {A} (a b pre post : list A) (e : A) :
  a ++ b = pre ++ e :: post ->
  (exists p2, a = pre ++ e :: p2 /\ post = p2 ++ b) \/
  (exists p1, pre = a ++ p1 /\ b = p1 ++ e :: post).
Proof.
  revert pre; induction a as [|x a IH]; intros pre H.
  - right. exists pre. now split.
  - destruct pre as [|y pre]; simpl in H; injection H as -> H.
    + left. exists a. now subst.
    + destruct (IH _ H) as [(p2 & -> & ->) | (p1 & -> & ->)].
      * left. now exists p2.
      * right. now exists p1.
Qed.

Lemma count_app p (a b : list Event) :
  count p (a ++ b) = (count p a + count p b)%nat.
Proof. unfold count. now rewrite filter_app, length_app. Qed.

(** ** Strings *)

Lemma c_str_strcpy_bytes src l :
  strcpy_bytes src = Some l -> forall rest, c_str (l ++ rest) = c_str src.
Proof.
  revert l; induction src as [|c src IH]; simpl; intros l H rest.
  - discriminate.
  - destruct (Byte.eqb c NUL) eqn:E.
    + injection H as <-. simpl. reflexivity.
    + destruct (strcpy_bytes src) as [l'|]; simpl in H; [|discriminate].
      injection H as <-. simpl. rewrite E. f_equal. now apply IH.
Qed.

(** After [strcpy(dst, src)], [dst] holds the string [src] held. *)
Lemma c_str_strcpy dst src dst' :
  strcpy dst src = Some dst' -> c_str dst' = c_str src.
Proof.
  unfold strcpy. destruct (strcpy_bytes src) as [l|] eqn:E; [|discriminate].
  destruct (_ <=? _)%nat; [|discriminate].
  intros [= <-]. now apply c_str_strcpy_bytes.
Qed.

Section Facts.

Context {K : Kernel}.
Implicit Types (w : World K) (evs : list Event) (buf : list byte).

Local Opaque BUFSIZE.

(** ** The monad *)

Lemma runs_bind {A B} (m : Prog K A) (k : A -> Prog K B) w a e1 w1 b e2 w2 :
  runs m w a e1 w1 -> runs (k a) w1 b e2 w2 ->
  runs (bind m k) w b (e1 ++ e2) w2.
Proof.
  intros [H1 T1] [H2 T2]. split.
  - unfold bind. now rewrite H1.
  - now rewrite T2, T1, app_assoc.
Qed.

Lemma runs_ret {A} (a : A) w : runs (ret a) w a [] w.
Proof. split; [reflexivity | now rewrite app_nil_r]. Qed.

(** ** One direction, one turn, [n] turns *)

Lemma relay_runs src dst buf w :
  exists buf' evs w',
    runs (relay src dst buf) w buf' evs w' /\ relay_events src dst evs.
Proof.
  unfold relay, sys_read, sys_write, perror, printf, runs.
  unfold bind, syscall, emit, ret.
  destruct (os_read K src BUFSIZE (os w)) as [[pkt|] o]; simpl.
  - set (d := firstn (Z.to_nat BUFSIZE) pkt).
    assert (Hd : Z.of_nat (List.length d) <= BUFSIZE).
    { unfold d. pose proof (firstn_le_length (Z.to_nat BUFSIZE) pkt).
      assert (0 <= BUFSIZE) by (now vm_compute). lia. }
    destruct (Z.ltb_spec (Z.of_nat (List.length d)) 0) as [Hn|_]; [lia|].
    simpl. rewrite Nat2Z.id, firstn_length_app.
    destruct (os_write K dst d o) as [r o']; simpl.
    destruct (Z.ltb_spec r 0) as [Hr|Hr]; simpl.
    + eexists _, _, _. split; [split; [reflexivity|]|].
      * simpl. rewrite <- !app_assoc. reflexivity.
      * now apply relay_write_failed.
    + eexists _, _, _. split; [split; [reflexivity|]|].
      * simpl. rewrite <- !app_assoc. reflexivity.
      * now apply relay_written.
  - eexists _, _, _. split; [split; [reflexivity|]|].
    + simpl. rewrite <- !app_assoc. reflexivity.
    + apply relay_read_failed.
Qed.

Lemma served_runs (ready : bool) src dst buf w :
  exists buf' evs w',
    runs (if ready then relay src dst buf else ret buf) w buf' evs w' /\
    (if ready then relay_events src dst evs else evs = []).
Proof.
  destruct ready.
  - apply relay_runs.
  - exists buf, [], w. split; [apply runs_ret | reflexivity].
Qed.

(** One turn, told by what [select] answers. *)
Lemma iteration_runs_select fd1 fd2 buf w r ready o :
  fd_in_range fd1 = true -> fd_in_range fd2 = true ->
  os_select K (nfds_of fd1 fd2) (watched fd1 fd2) (os w) = ((r, ready), o) ->
  (r < 0 ->
   exists w',
     runs (iteration fd1 fd2 buf) w buf
       [EFflush stdout; EFflush stderr;
        ESelect (nfds_of fd1 fd2) (watched fd1 fd2) r ready;
        EPerror "select"] w') /\
  (0 <= r ->
   exists buf' a b w',
     runs (iteration fd1 fd2 buf) w buf'
       ([EFflush stdout; EFflush stderr;
         ESelect (nfds_of fd1 fd2) (watched fd1 fd2) r ready] ++ a ++ b) w' /\
     (if FD_ISSET fd1 ready then relay_events fd1 fd2 a else a = []) /\
     (if FD_ISSET fd2 ready then relay_events fd2 fd1 b else b = [])).
Proof.
  intros H1 H2 Es.
  set (w1 := mk_world o
         (((trace w ++ [EFflush stdout]) ++ [EFflush stderr]) ++
          [ESelect (nfds_of fd1 fd2) (watched fd1 fd2) r ready])).
  assert (Hs : forall A (k : Z * fd_set -> Prog K A) a e w',
             runs (k (r, ready)) w1 a e w' ->
             runs (fflush stdout ;;; fflush stderr ;;;
                   fds <- lift (FD_SET fd1 FD_ZERO) ;;
                   fds <- lift (FD_SET fd2 fds) ;;
                   x <- sys_select (nfds_of fd1 fd2) fds ;; k x)
               w a
               ([EFflush stdout; EFflush stderr;
                 ESelect (nfds_of fd1 fd2) (watched fd1 fd2) r ready] ++ e)
               w').
  { intros A k a e w' [Hk Tk]. unfold FD_SET. rewrite H1, H2. split.
    - unfold fflush, sys_select, lift, bind, emit, ret, syscall.
      cbn [os trace]. fold (watched fd1 fd2). rewrite Es. exact Hk.
    - rewrite Tk. subst w1. simpl. rewrite <- !app_assoc. reflexivity. }
  split; intros Hr.
  - eexists. apply Hs. simpl. rewrite (proj2 (Z.ltb_lt r 0) Hr).
    split; reflexivity.
  - destruct (served_runs (FD_ISSET fd1 ready) fd1 fd2 buf w1)
      as (buf1 & a & wa & Ra & Sa).
    destruct (served_runs (FD_ISSET fd2 ready) fd2 fd1 buf1 wa)
      as (buf2 & b & wb & Rb & Sb).
    exists buf2, a, b, wb. split; [|now split].
    apply Hs. simpl. rewrite (proj2 (Z.ltb_ge r 0) Hr).
    eapply runs_bind; eassumption.
Qed.

Lemma iteration_runs fd1 fd2 buf w :
  fd_in_range fd1 = true -> fd_in_range fd2 = true ->
  exists buf' evs w',
    runs (iteration fd1 fd2 buf) w buf' evs w' /\
    iteration_events fd1 fd2 evs.
Proof.
  intros H1 H2.
  destruct (os_select K (nfds_of fd1 fd2) (watched fd1 fd2) (os w))
    as [[r ready] o] eqn:Es.
  destruct (iteration_runs_select fd1 fd2 buf w r ready o H1 H2 Es)
    as [Hfail Hok].
  destruct (Z.ltb_spec r 0) as [Hr|Hr].
  - destruct (Hfail Hr) as (w' & R).
    eexists _, _, _. split; [exact R|]. now apply iteration_select_failed.
  - destruct (Hok Hr) as (buf' & a & b & w' & R & Sa & Sb).
    eexists _, _, _. split; [exact R|]. now apply iteration_served.
Qed.

Lemma relay_events_reads src dst evs fd :
  relay_events src dst evs ->
  count (is_read_from fd) evs = if src =? fd then 1%nat else O.
Proof.
  intros []; unfold count; simpl; now destruct (src =? fd).
Qed.

Lemma loop_runs fd1 fd2 :
  fd_in_range fd1 = true -> fd_in_range fd2 = true ->
  forall n buf w,
  exists buf' evs w',
    runs (forward_loop n fd1 fd2 buf) w buf' evs w' /\
    loop_events fd1 fd2 n evs.
Proof.
  intros H1 H2. induction n as [|n IH]; intros buf w; simpl.
  - exists buf, [], w. split; [apply runs_ret | constructor].
  - destruct (iteration_runs fd1 fd2 buf w H1 H2) as (b1 & e1 & w1 & R1 & S1).
    destruct (IH b1 w1) as (b2 & e2 & w2 & R2 & S2).
    exists b2, (e1 ++ e2), w2. split.
    + eapply runs_bind; eassumption.
    + now constructor.
Qed.

(** ** The grammar of a trace *)

(** All the places of an event in a list that is written out. *)
Ltac split_list H :=
  lazymatch type of H with
  | [] = ?p ++ _ :: _ => destruct p; discriminate H
  | _ :: _ = ?p ++ _ :: _ =>
      let x := fresh "x" in
      let p' := fresh "p" in
      destruct p as [|x p']; simpl in H;
      [ injection H as H ?; try discriminate H
      | injection H as ? H; split_list H ]
  end.

(** The shapes a turn's events can take, written out. *)
Ltac iteration_shapes H :=
  destruct H;
  repeat match goal with
         | H' : (if ?c then _ else _) |- _ => destruct c
         | H' : relay_events _ _ ?a |- _ => is_var a; destruct H'
         | H' : ?a = [] |- _ => is_var a; subst a
         end.

Lemma loop_events_head fd1 fd2 n evs :
  loop_events fd1 fd2 n evs ->
  evs = [] \/
  exists r ready tl,
    evs = EFflush stdout :: EFflush stderr ::
          ESelect (nfds_of fd1 fd2) (watched fd1 fd2) r ready :: tl.
Proof.
  intros [|k it rest Hit _]; [now left | right].
  destruct Hit; simpl; eauto.
Qed.

Lemma loop_events_at fd1 fd2 n evs pre e post :
  loop_events fd1 fd2 n evs -> evs = pre ++ e :: post ->
  exists pre0 it p1 p2 k rest,
    iteration_events fd1 fd2 it /\ loop_events fd1 fd2 k rest /\
    it = p1 ++ e :: p2 /\ pre = pre0 ++ p1 /\ post = p2 ++ rest.
Proof.
  intros H; revert pre; induction H as [|n it rest Hit Hrest IH]; intros pre E.
  - destruct pre; discriminate.
  - apply app_eq_split in E as [(p2 & -> & ->) | (p1 & -> & E)].
    + exists [], (pre ++ e :: p2), pre, p2, n, rest. auto.
    + destruct (IH _ E) as (pre0 & it' & q1 & q2 & k & rest' & ? & ? & ? & -> & ->).
      exists (it ++ pre0), it', q1, q2, k, rest'.
      rewrite app_assoc. auto.
Qed.

Lemma relay_events_selects src dst evs :
  relay_events src dst evs -> count is_select evs = O.
Proof. now intros []. Qed.

Lemma iteration_events_selects fd1 fd2 evs :
  iteration_events fd1 fd2 evs -> count is_select evs = 1%nat.
Proof.
  intros H. iteration_shapes H; reflexivity.
Qed.

Lemma loop_events_selects fd1 fd2 n evs :
  loop_events fd1 fd2 n evs -> count is_select evs = n.
Proof.
  induction 1 as [|n it rest Hit _ IH]; [reflexivity|].
  now rewrite count_app, (iteration_events_selects _ _ _ Hit), IH.
Qed.

Lemma peer_fst fd1 fd2 : peer fd1 fd2 fd1 = fd2.
Proof. unfold peer. now rewrite Z.eqb_refl. Qed.

Lemma peer_snd fd1 fd2 : peer fd1 fd2 fd2 = fd1.
Proof. unfold peer. destruct (Z.eqb_spec fd2 fd1); congruence. Qed.

(** A read that succeeded, in a turn: its trace line and the write follow. *)
Lemma read_ok_in_iteration fd1 fd2 it p1 p2 x c len data :
  iteration_events fd1 fd2 it ->
  it = p1 ++ ERead x c len data :: p2 -> 0 <= len ->
  len = Z.of_nat (List.length data) /\ len <= BUFSIZE /\
  (x = fd1 \/ x = fd2) /\
  exists r p2',
    p2 = EPrintf read_trace [ArgInt len; ArgInt x] ::
         EWrite (peer fd1 fd2 x) data r :: p2'.
Proof.
  intros H E Hlen. iteration_shapes H; simpl in E; split_list E.
  all: try lia.
  all: subst; rewrite ?peer_fst, ?peer_snd; repeat split; eauto.
Qed.

Lemma moves_on_rest fd1 fd2 k rest :
  loop_events fd1 fd2 k rest -> moves_on fd2 rest.
Proof.
  intros H. destruct (loop_events_head _ _ _ _ H) as [-> | (r & rd & tl & ->)];
    simpl; auto.
Qed.

Ltac moves_on_tac :=
  simpl;
  first [ eapply moves_on_rest; eassumption | right; eauto ].

Ltac some_prefix :=
  exists [] + eexists [_] + eexists [_; _] + eexists [_; _; _] +
  eexists [_; _; _; _] + eexists [_; _; _; _; _] +
  eexists [_; _; _; _; _; _] + eexists [_; _; _; _; _; _; _] +
  eexists [_; _; _; _; _; _; _; _] + eexists [_; _; _; _; _; _; _; _; _].

(** A write, in a turn: it hands on what the read before it brought, and a
    complaint follows exactly when it fails. *)
Lemma write_in_iteration fd1 fd2 it p1 p2 y data r k rest :
  iteration_events fd1 fd2 it -> loop_events fd1 fd2 k rest ->
  it = p1 ++ EWrite y data r :: p2 ->
  (exists p1' x,
     p1 = p1' ++ [ERead x BUFSIZE (Z.of_nat (List.length data)) data;
                  EPrintf read_trace
                    [ArgInt (Z.of_nat (List.length data)); ArgInt x]] /\
     y = peer fd1 fd2 x) /\
  (r < 0 ->
   exists post', p2 ++ rest = EPerror "write" :: post' /\ moves_on fd2 post') /\
  (0 <= r -> moves_on fd2 (p2 ++ rest)).
Proof.
  intros H Hrest E. iteration_shapes H; simpl in E; split_list E.
  all: subst; split; [|split; intros Hr; try lia].
  all: try (some_prefix; eexists; split; [reflexivity|];
            rewrite ?peer_fst, ?peer_snd; reflexivity).
  all: try (eexists; split; [reflexivity|]).
  all: moves_on_tac.
Qed.

(** A line on stdout, in a turn: it is the trace of the read just before. *)
Lemma printf_in_iteration fd1 fd2 it p1 p2 fmt args :
  iteration_events fd1 fd2 it ->
  it = p1 ++ EPrintf fmt args :: p2 ->
  exists p1' x c len data,
    p1 = p1' ++ [ERead x c len data] /\ 0 <= len /\
    fmt = read_trace /\ args = [ArgInt len; ArgInt x].
Proof.
  intros H E. iteration_shapes H; simpl in E; split_list E.
  all: subst; some_prefix; do 4 eexists; split; [reflexivity|].
  all: repeat split; lia.
Qed.

(** ** tun_alloc *)

Lemma tun_alloc_open_refused dev w fd o :
  os_open K tun_path O_RDWR (os w) = (fd, o) -> fd < 0 ->
  exists w',
    runs (tun_alloc dev) w (-1, dev)
      [EOpen tun_path O_RDWR fd; EPerror "open"] w'.
Proof.
  intros Eo Hfd. eexists. unfold runs, tun_alloc, sys_open, perror.
  unfold bind, syscall, emit, ret. fold tun_path. rewrite Eo.
  cbn [os trace]. rewrite (proj2 (Z.ltb_lt fd 0) Hfd).
  split; [reflexivity|]. cbn [trace]. now rewrite <- !app_assoc.
Qed.

Lemma tun_alloc_config_refused dev w fd o ifr r ifr' o' :
  os_open K tun_path O_RDWR (os w) = (fd, o) -> 0 <= fd ->
  tun_request dev = Some ifr ->
  os_ioctl K fd TUNSETIFF ifr o = ((r, ifr'), o') -> r < 0 ->
  exists w',
    runs (tun_alloc dev) w (-1, dev)
      [EOpen tun_path O_RDWR fd; EIoctl fd TUNSETIFF ifr r;
       EPerror "ioctl"; EClose fd] w'.
Proof.
  intros Eo Hfd Er Ei Hr.
  destruct (os_close K fd o') as [rc o''] eqn:Ec. eexists.
  unfold runs, tun_alloc, sys_open, sys_ioctl, sys_close, perror.
  unfold bind, syscall, emit, ret. fold tun_path. rewrite Eo.
  cbn [os trace]. rewrite (proj2 (Z.ltb_ge fd 0) Hfd), Er.
  unfold lift, ret. cbn [os trace]. rewrite Ei. cbn [os trace].
  rewrite (proj2 (Z.ltb_lt r 0) Hr). cbn [os trace]. rewrite Ec.
  split; [reflexivity|]. cbn [trace]. now rewrite <- !app_assoc.
Qed.

Lemma tun_alloc_configured dev w fd o ifr r ifr' o' dev' :
  os_open K tun_path O_RDWR (os w) = (fd, o) -> 0 <= fd ->
  tun_request dev = Some ifr ->
  os_ioctl K fd TUNSETIFF ifr o = ((r, ifr'), o') -> 0 <= r ->
  strcpy dev (ifr_name ifr') = Some dev' ->
  exists w',
    runs (tun_alloc dev) w (fd, dev')
      [EOpen tun_path O_RDWR fd; EIoctl fd TUNSETIFF ifr r] w'.
Proof.
  intros Eo Hfd Er Ei Hr Es. eexists.
  unfold runs, tun_alloc, sys_open, sys_ioctl.
  unfold bind, syscall, emit, ret. fold tun_path. rewrite Eo.
  cbn [os trace]. rewrite (proj2 (Z.ltb_ge fd 0) Hfd), Er.
  unfold lift, ret. cbn [os trace]. rewrite Ei. cbn [os trace].
  rewrite (proj2 (Z.ltb_ge r 0) Hr), Es.
  split; [reflexivity|]. cbn [trace]. now rewrite <- !app_assoc.
Qed.

Lemma alloc_fails_runs dev w kind :
  alloc_fails dev w kind ->
  exists evs w',
    runs (tun_alloc dev) w (-1, dev) evs w' /\
    forallb alloc_event evs = true.
Proof.
  intros [fd o Eo Hfd | fd o ifr r ifr' o' Eo Hfd Er Ei Hr].
  - destruct (tun_alloc_open_refused dev w fd o Eo Hfd) as (w' & R).
    eexists _, w'. split; [exact R | reflexivity].
  - destruct (tun_alloc_config_refused dev w fd o ifr r ifr' o' Eo Hfd Er Ei Hr)
      as (w' & R).
    eexists _, w'. split; [exact R | reflexivity].
Qed.

(** Every way [tun_alloc] returns. *)
Lemma tun_alloc_returns dev w rv dev' w' :
  tun_alloc dev w = Some ((rv, dev'), w') ->
  exists evs,
    trace w' = trace w ++ evs /\
    ((exists fd,
        fd < 0 /\ rv = -1 /\ dev' = dev /\
        evs = [EOpen tun_path O_RDWR fd; EPerror "open"]) \/
     (exists fd ifr r,
        0 <= fd /\ r < 0 /\ rv = -1 /\ dev' = dev /\
        evs = [EOpen tun_path O_RDWR fd; EIoctl fd TUNSETIFF ifr r;
               EPerror "ioctl"; EClose fd]) \/
     (exists ifr r ifr' o o',
        0 <= rv /\ 0 <= r /\
        tun_request dev = Some ifr /\
        os_ioctl K rv TUNSETIFF ifr o = ((r, ifr'), o') /\
        strcpy dev (ifr_name ifr') = Some dev' /\
        evs = [EOpen tun_path O_RDWR rv; EIoctl rv TUNSETIFF ifr r])).
Proof.
  destruct (os_open K tun_path O_RDWR (os w)) as [fd o] eqn:Eo.
  destruct (Z.ltb_spec fd 0) as [Hfd|Hfd].
  - destruct (tun_alloc_open_refused dev w fd o Eo Hfd) as (w1 & R & T).
    rewrite R. intros [= <- <- <-]. eexists. split; [exact T|].
    left. now exists fd.
  - destruct (tun_request dev) as [ifr|] eqn:Er.
    + destruct (os_ioctl K fd TUNSETIFF ifr o) as [[r ifr'] o'] eqn:Ei.
      destruct (Z.ltb_spec r 0) as [Hr|Hr].
      * destruct (tun_alloc_config_refused dev w fd o ifr r ifr' o'
                    Eo Hfd Er Ei Hr) as (w1 & R & T).
        rewrite R. intros [= <- <- <-]. eexists. split; [exact T|].
        right; left. now exists fd, ifr, r.
      * destruct (strcpy dev (ifr_name ifr')) as [d|] eqn:Es.
        -- destruct (tun_alloc_configured dev w fd o ifr r ifr' o' d
                       Eo Hfd Er Ei Hr Es) as (w1 & R & T).
           rewrite R. intros [= <- <- <-]. eexists. split; [exact T|].
           right; right. exists ifr, r, ifr', o, o'. auto 10.
        -- unfold tun_alloc, sys_open, sys_ioctl.
           unfold bind, syscall, emit, ret. fold tun_path. rewrite Eo.
           cbn [os trace]. rewrite (proj2 (Z.ltb_ge fd 0) Hfd), Er.
           unfold lift, ret. cbn [os trace]. rewrite Ei. cbn [os trace].
           rewrite (proj2 (Z.ltb_ge r 0) Hr), Es. discriminate.
    + unfold tun_alloc, sys_open.
      unfold bind, syscall, emit, ret. fold tun_path. rewrite Eo.
      cbn [os trace]. rewrite (proj2 (Z.ltb_ge fd 0) Hfd), Er.
      discriminate.
Qed.

(** ** main, up to the loop *)

Lemma main_exits_on_failure fuel buf0 w wf :
  startup_fails w wf -> main fuel buf0 w = Some (Exited 1, wf).
Proof.
  intros [fd1 dev1 w1 H1 Hfd1 | fd1 dev1 w1 fd2 dev2 w2 H1 Hfd1 H2 Hfd2];
    unfold main, bind; fold tun_template; rewrite H1.
  - now rewrite (proj2 (Z.ltb_lt fd1 0) Hfd1).
  - rewrite (proj2 (Z.ltb_ge fd1 0) Hfd1).
    unfold printf, emit. fold (announce dev1 w1). rewrite H2.
    now rewrite (proj2 (Z.ltb_lt fd2 0) Hfd2).
Qed.

Lemma main_enters_loop fuel buf0 w fd1 dev1 w1 fd2 dev2 w2 :
  tun_alloc tun_template w = Some ((fd1, dev1), w1) -> 0 <= fd1 ->
  tun_alloc tun_template (announce dev1 w1) = Some ((fd2, dev2), w2) ->
  0 <= fd2 ->
  main fuel buf0 w =
  match forward_loop fuel fd1 fd2 buf0 (announce dev2 w2) with
  | Some (_, w') => Some (Running, w')
  | None => None
  end.
Proof.
  intros H1 Hfd1 H2 Hfd2. unfold main, bind; fold tun_template; rewrite H1.
  rewrite (proj2 (Z.ltb_ge fd1 0) Hfd1).
  unfold printf, emit. fold (announce dev1 w1). rewrite H2.
  rewrite (proj2 (Z.ltb_ge fd2 0) Hfd2). fold (announce dev2 w2).
  now destruct (forward_loop fuel fd1 fd2 buf0 (announce dev2 w2)) as [[? ?]|].
Qed.

(** What a failed startup leaves on the trace. *)
Lemma startup_fails_events w wf :
  startup_fails w wf ->
  exists evs,
    trace wf = trace w ++ evs /\
    count loop_event evs = O /\
    forall pre fd post,
      evs = pre ++ EClose fd :: post ->
      post = [] /\
      exists pre' ifr r,
        r < 0 /\
        pre = pre' ++ [EIoctl fd TUNSETIFF ifr r; EPerror "ioctl"].
Proof.
  intros [fd1 dev1 w1 H1 Hfd1 | fd1 dev1 w1 fd2 dev2 w2 H1 Hfd1 H2 Hfd2].
  - destruct (tun_alloc_returns _ _ _ _ _ H1) as (evs & T & C).
    exists evs. split; [exact T|].
    destruct C as [(fd & ? & ? & ? & ->) | [(fd & ifr & r & ? & ? & ? & ? & ->)
                  | (ifr & r & ifr' & o & o' & ? & _)]]; [| |lia].
    + split; [reflexivity|]. intros pre fd' post E. split_list E.
    + split; [reflexivity|]. intros pre fd' post E. split_list E.
      subst. split; [reflexivity|]. eexists [_], ifr, r. now split.
  - destruct (tun_alloc_returns _ _ _ _ _ H1) as (evs1 & T1 & C1).
    destruct (tun_alloc_returns _ _ _ _ _ H2) as (evs2 & T2 & C2).
    exists (evs1 ++ [EPrintf created_trace [ArgStr (c_str dev1)]] ++ evs2).
    split.
    { rewrite T2. unfold announce. cbn [trace]. rewrite T1.
      now rewrite <- !app_assoc. }
    destruct C1 as [(fd & ? & ? & _) | [(fd & ifr & r & ? & ? & ? & _)
                   | (ifr1 & r1 & ifr1' & o1 & o1' & _ & ? & _ & _ & _ & ->)]];
      [lia|lia|].
    destruct C2 as [(fd & ? & ? & ? & ->) | [(fd & ifr & r & ? & ? & ? & ? & ->)
                   | (ifr & r & ifr' & o & o' & ? & _)]]; [| |lia].
    + split; [reflexivity|]. intros pre fd' post E. simpl in E. split_list E.
    + split; [reflexivity|]. intros pre fd' post E. simpl in E. split_list E.
      subst. split; [reflexivity|]. eexists [_; _; _; _], ifr, r. now split.
Qed.


(** ** More of the grammar *)

(** A complaint, in a turn: the call just before it failed, and it is the
    call the complaint names. *)
Lemma perror_in_iteration fd1 fd2 it p1 p2 s :
  iteration_events fd1 fd2 it ->
  it = p1 ++ EPerror s :: p2 ->
  (exists p1' nf st r rd,
     r < 0 /\ s = "select"%string /\ p1 = p1' ++ [ESelect nf st r rd]) \/
  (exists p1' x c r d,
     r < 0 /\ s = "read"%string /\ p1 = p1' ++ [ERead x c r d]) \/
  (exists p1' y d r,
     r < 0 /\ s = "write"%string /\ p1 = p1' ++ [EWrite y d r]).
Proof.
  intros H E. iteration_shapes H; simpl in E; split_list E.
  all: subst;
    first
      [ left; some_prefix; do 4 eexists;
        split; [|split; reflexivity]; solve [eassumption | lia]
      | right; left; some_prefix; do 4 eexists;
        split; [|split; reflexivity]; solve [eassumption | lia]
      | right; right; some_prefix; do 3 eexists;
        split; [|split; reflexivity]; solve [eassumption | lia] ].
Qed.

(** A readiness wait, in a turn: the two flushes come before it, nothing
    else does. *)
Lemma select_place_in_iteration fd1 fd2 it p1 p2 nf s r rd :
  iteration_events fd1 fd2 it ->
  it = p1 ++ ESelect nf s r rd :: p2 ->
  p1 = [EFflush stdout; EFflush stderr] /\
  nf = nfds_of fd1 fd2 /\ s = watched fd1 fd2.
Proof.
  intros H E. iteration_shapes H; simpl in E; split_list E.
  all: now subst.
Qed.

Lemma relay_events_counts src dst evs :
  relay_events src dst evs ->
  count is_write evs = count is_read_ok evs /\
  count is_printf evs = count is_read_ok evs.
Proof.
  intros [|data r _ _|data r _ _]; unfold count;
    cbn [filter is_write is_printf is_read_ok].
  - now split.
  - rewrite (proj2 (Z.leb_le 0 (Z.of_nat (List.length data))))
      by apply Nat2Z.is_nonneg.
    now split.
  - rewrite (proj2 (Z.leb_le 0 (Z.of_nat (List.length data))))
      by apply Nat2Z.is_nonneg.
    now split.
Qed.

Lemma loop_events_counts fd1 fd2 n evs :
  loop_events fd1 fd2 n evs ->
  count is_write evs = count is_read_ok evs /\
  count is_printf evs = count is_read_ok evs.
Proof.
  induction 1 as [|n it rest Hit _ [IHw IHp]]; [now split|].
  rewrite !count_app, IHw, IHp.
  assert (count is_write it = count is_read_ok it /\
          count is_printf it = count is_read_ok it) as [-> ->]; [|now split].
  destruct Hit as [r ready _ | r ready a b _ Ha Hb]; [now split|].
  rewrite !count_app.
  assert (Ca : count is_write a = count is_read_ok a /\
               count is_printf a = count is_read_ok a).
  { destruct (FD_ISSET fd1 ready);
      [now apply relay_events_counts with fd1 fd2 | now subst]. }
  assert (Cb : count is_write b = count is_read_ok b /\
               count is_printf b = count is_read_ok b).
  { destruct (FD_ISSET fd2 ready);
      [now apply relay_events_counts with fd2 fd1 | now subst]. }
  destruct Ca as [-> ->], Cb as [-> ->]. now split.
Qed.

Lemma loop_events_on_handles fd1 fd2 n evs :
  loop_events fd1 fd2 n evs -> forallb (on_handles fd1 fd2) evs = true.
Proof.
  induction 1 as [|n it rest Hit _ IH]; [reflexivity|].
  rewrite forallb_app, IH, andb_true_r.
  iteration_shapes Hit; simpl;
    rewrite ?Z.eqb_refl, ?orb_true_r; reflexivity.
Qed.

(** One direction leaves the buffer its size, when the buffer has room for
    what [read] is asked for. *)
Lemma relay_buffer_length src dst buf w buf' w' :
  (Z.to_nat BUFSIZE <= List.length buf)%nat ->
  relay src dst buf w = Some (buf', w') ->
  List.length buf' = List.length buf.
Proof.
  intros Hb. unfold relay, sys_read, sys_write, perror, printf.
  unfold bind, syscall, emit, ret.
  destruct (os_read K src BUFSIZE (os w)) as [[pkt|] o]; cbn [os trace].
  - set (d := firstn (Z.to_nat BUFSIZE) pkt).
    assert (Hd : (List.length d <= Z.to_nat BUFSIZE)%nat)
      by apply firstn_le_length.
    destruct (Z.ltb_spec (Z.of_nat (List.length d)) 0) as [Hn|_]; [lia|].
    cbn [os trace].
    destruct (os_write K dst _ o) as [r o']. cbn [os trace].
    destruct (r <? 0); intros E; inversion E;
      rewrite length_app, length_skipn; lia.
  - cbn. intros E. now inversion E.
Qed.

Lemma bind_inv {A B} (m : Prog K A) (k : A -> Prog K B) w b w' :
  bind m k w = Some (b, w') ->
  exists a w1, m w = Some (a, w1) /\ k a w1 = Some (b, w').
Proof.
  unfold bind. destruct (m w) as [[a w1]|]; [|discriminate].
  intros E. now exists a, w1.
Qed.

Lemma served_buffer_length (ready : bool) src dst buf w buf' w' :
  (Z.to_nat BUFSIZE <= List.length buf)%nat ->
  (if ready then relay src dst buf else ret buf) w = Some (buf', w') ->
  List.length buf' = List.length buf.
Proof.
  intros Hb. destruct ready.
  - now apply relay_buffer_length.
  - intros E. now inversion E.
Qed.

Lemma iteration_buffer_length fd1 fd2 buf w buf' w' :
  (Z.to_nat BUFSIZE <= List.length buf)%nat ->
  iteration fd1 fd2 buf w = Some (buf', w') ->
  List.length buf' = List.length buf.
Proof.
  intros Hb E. unfold iteration in E.
  apply bind_inv in E as (? & ? & _ & E).
  apply bind_inv in E as (? & ? & _ & E).
  apply bind_inv in E as (? & ? & _ & E).
  apply bind_inv in E as (? & ? & _ & E).
  apply bind_inv in E as ([r ready] & w1 & _ & E).
  destruct (r <? 0).
  - apply bind_inv in E as (? & ? & _ & E). now inversion E.
  - apply bind_inv in E as (b1 & wa & Ea & Eb).
    apply served_buffer_length in Ea; [|exact Hb].
    apply served_buffer_length in Eb; lia.
Qed.

Lemma loop_buffer_length fd1 fd2 n buf w buf' w' :
  (Z.to_nat BUFSIZE <= List.length buf)%nat ->
  forward_loop n fd1 fd2 buf w = Some (buf', w') ->
  List.length buf' = List.length buf.
Proof.
  revert buf w; induction n as [|n IH]; intros buf w Hb; simpl.
  - intros E. now inversion E.
  - unfold bind.
    destruct (iteration fd1 fd2 buf w) as [[b1 w1]|] eqn:E1; [|discriminate].
    apply iteration_buffer_length in E1; [|exact Hb].
    intros E. apply IH in E; lia.
Qed.

(** ** A turn from what the kernel answers *)

Lemma runs_deterministic {A} (m : Prog K A) w a e w1 a' e' w2 :
  runs m w a e w1 -> runs m w a' e' w2 -> a = a' /\ e = e' /\ w1 = w2.
Proof.
  intros [R T] [R' T']. rewrite R in R'. inversion R'; subst.
  split; [reflexivity|]. split; [|reflexivity].
  rewrite T in T'. now apply app_inv_head in T'.
Qed.

(** The served direction leaves the events of one service, or none. *)
Lemma serve_events (ready : fd_set) src dst buf w buf1 a wa :
  runs (serve ready src dst buf) w buf1 a wa ->
  if FD_ISSET src ready then relay_events src dst a else a = [].
Proof.
  intros R. unfold serve in R.
  destruct (served_runs (FD_ISSET src ready) src dst buf w)
    as (buf1' & a' & wa' & R' & S).
  destruct (runs_deterministic _ _ _ _ _ _ _ _ R R') as (_ & -> & _).
  exact S.
Qed.

Lemma serve_runs (ready : fd_set) src dst buf w :
  exists buf1 a wa, runs (serve ready src dst buf) w buf1 a wa.
Proof.
  destruct (served_runs (FD_ISSET src ready) src dst buf w)
    as (buf1 & a & wa & R & _).
  now exists buf1, a, wa.
Qed.

(** A read that brings a packet: what is read is printed and written. *)
Lemma relay_forwards src dst buf w pkt o1 rw o2 :
  os_read K src BUFSIZE (os w) = (Some pkt, o1) ->
  os_write K dst (firstn (Z.to_nat BUFSIZE) pkt) o1 = (rw, o2) ->
  exists w',
    runs (relay src dst buf) w
      (firstn (Z.to_nat BUFSIZE) pkt ++
       skipn (List.length (firstn (Z.to_nat BUFSIZE) pkt)) buf)
      (forwarded src dst (firstn (Z.to_nat BUFSIZE) pkt) rw) w'.
Proof.
  intros Er Ew. unfold relay, sys_read, sys_write, perror, printf, runs.
  unfold bind, syscall, emit, ret. rewrite Er. cbn [os trace].
  set (d := firstn (Z.to_nat BUFSIZE) pkt) in *.
  destruct (Z.ltb_spec (Z.of_nat (List.length d)) 0) as [Hn|_]; [lia|].
  cbn [os trace]. rewrite Nat2Z.id, firstn_length_app, Ew. cbn [os trace].
  unfold forwarded. destruct (rw <? 0); eexists; (split; [reflexivity|]);
    cbn [trace]; rewrite <- !app_assoc; reflexivity.
Qed.

(** A read that fails: a complaint, and the buffer as it was. *)
Lemma relay_read_refused src dst buf w o1 :
  os_read K src BUFSIZE (os w) = (None, o1) ->
  exists w', runs (relay src dst buf) w buf (read_refused src) w'.
Proof.
  intros Er. unfold relay, sys_read, perror, runs.
  unfold bind, syscall, emit, ret. rewrite Er. cbn [os trace].
  eexists. split; [reflexivity|]. cbn [trace].
  rewrite <- !app_assoc. reflexivity.
Qed.

(** The turn up to the return of [select], whatever follows. *)
Lemma iteration_after_select fd1 fd2 w r ready o
    {A} (k : Z * fd_set -> Prog K A) a e w' :
  fd_in_range fd1 = true -> fd_in_range fd2 = true ->
  os_select K (nfds_of fd1 fd2) (watched fd1 fd2) (os w) = ((r, ready), o) ->
  runs (k (r, ready)) (after_select fd1 fd2 r ready o w) a e w' ->
  runs (fflush stdout ;;; fflush stderr ;;;
        fds <- lift (FD_SET fd1 FD_ZERO) ;;
        fds <- lift (FD_SET fd2 fds) ;;
        x <- sys_select (nfds_of fd1 fd2) fds ;; k x)
    w a (wake fd1 fd2 r ready ++ e) w'.
Proof.
  intros H1 H2 Es [Hk Tk]. unfold FD_SET. rewrite H1, H2. split.
  - unfold fflush, sys_select, lift, bind, emit, ret, syscall.
    cbn [os trace]. fold (watched fd1 fd2). rewrite Es. exact Hk.
  - rewrite Tk. unfold after_select, wake. cbn [trace].
    rewrite <- !app_assoc. reflexivity.
Qed.

(** A turn whose wait succeeds is the wait and the two directions served,
    the first handle's first. *)
Lemma iteration_runs_served fd1 fd2 buf w r ready o buf1 a wa buf2 b wb :
  fd_in_range fd1 = true -> fd_in_range fd2 = true ->
  os_select K (nfds_of fd1 fd2) (watched fd1 fd2) (os w) = ((r, ready), o) ->
  0 <= r ->
  runs (serve ready fd1 fd2 buf) (after_select fd1 fd2 r ready o w)
    buf1 a wa ->
  runs (serve ready fd2 fd1 buf1) wa buf2 b wb ->
  runs (iteration fd1 fd2 buf) w buf2 (wake fd1 fd2 r ready ++ a ++ b) wb.
Proof.
  intros H1 H2 Es Hr Ra Rb.
  apply (iteration_after_select fd1 fd2 w r ready o); try assumption.
  cbv beta iota. rewrite (proj2 (Z.ltb_ge r 0) Hr).
  eapply runs_bind; [exact Ra | exact Rb].
Qed.

(** A turn whose wait fails is the wait and a complaint; the kernel is
    where the wait left it and the buffer as it was. *)
Lemma iteration_runs_refused fd1 fd2 buf w r ready o :
  fd_in_range fd1 = true -> fd_in_range fd2 = true ->
  os_select K (nfds_of fd1 fd2) (watched fd1 fd2) (os w) = ((r, ready), o) ->
  r < 0 ->
  exists w1,
    runs (iteration fd1 fd2 buf) w buf
      (wake fd1 fd2 r ready ++ [EPerror "select"]) w1 /\
    os w1 = o.
Proof.
  intros H1 H2 Es Hr.
  exists (mk_world o (trace (after_select fd1 fd2 r ready o w)
                        ++ [EPerror "select"])).
  split; [|reflexivity].
  apply (iteration_after_select fd1 fd2 w r ready o); try assumption.
  cbv beta iota. rewrite (proj2 (Z.ltb_lt r 0) Hr).
  split; reflexivity.
Qed.

(** After a turn the loop goes on, for as many turns as it is watched. *)
Lemma turn_then_loop n fd1 fd2 buf w buf1 turn w1 :
  fd_in_range fd1 = true -> fd_in_range fd2 = true ->
  runs (iteration fd1 fd2 buf) w buf1 turn w1 ->
  turn_of_loop n fd1 fd2 buf w turn.
Proof.
  intros H1 H2 R.
  destruct (loop_runs fd1 fd2 H1 H2 n buf1 w1) as (bufn & rest & wn & Rn & S).
  exists buf1, w1, bufn, rest, wn. split; [exact R|]. split; [exact Rn|].
  split; [now apply loop_events_selects with fd1 fd2|].
  simpl. eapply runs_bind; [exact R | exact Rn].
Qed.

Lemma relay_events_writes src dst evs x :
  relay_events src dst evs -> x <> dst ->
  filter (is_write_to x) evs = [].
Proof.
  intros H Hne. assert (E : (dst =? x) = false) by (apply Z.eqb_neq; congruence).
  destruct H; simpl; now rewrite ?E.
Qed.

Lemma served_writes (ready : bool) src dst evs x :
  (if ready then relay_events src dst evs else evs = []) -> x <> dst ->
  filter (is_write_to x) evs = [].
Proof.
  destruct ready; intros H Hne.
  - now apply relay_events_writes with src dst.
  - now subst.
Qed.

Lemma served_reads (ready : bool) src dst evs x :
  (if ready then relay_events src dst evs else evs = []) -> x <> src ->
  count (is_read_from x) evs = O.
Proof.
  destruct ready; intros H Hne.
  - rewrite (relay_events_reads _ _ _ x H).
    destruct (Z.eqb_spec src x); [congruence | reflexivity].
  - now subst.
Qed.

Lemma forwarded_writes src dst data rw :
  filter (is_write_to dst) (forwarded src dst data rw) = [EWrite dst data rw].
Proof.
  unfold forwarded. destruct (rw <? 0); simpl; now rewrite Z.eqb_refl.
Qed.

Lemma forwarded_writes_elsewhere src dst data rw x :
  x <> dst -> filter (is_write_to x) (forwarded src dst data rw) = [].
Proof.
  intros Hne. assert (E : (dst =? x) = false) by (apply Z.eqb_neq; congruence).
  unfold forwarded. destruct (rw <? 0); simpl; now rewrite E.
Qed.

Lemma forwarded_reads src dst data rw :
  count (is_read_from src) (forwarded src dst data rw) = 1%nat.
Proof.
  unfold forwarded, count. destruct (rw <? 0); simpl; now rewrite Z.eqb_refl.
Qed.

Lemma forwarded_reads_elsewhere src dst data rw x :
  x <> src -> count (is_read_from x) (forwarded src dst data rw) = O.
Proof.
  intros Hne. assert (E : (src =? x) = false) by (apply Z.eqb_neq; congruence).
  unfold forwarded, count. destruct (rw <? 0); simpl; now rewrite E.
Qed.

Lemma read_length_bounded (pkt : list byte) :
  Z.of_nat (List.length (firstn (Z.to_nat BUFSIZE) pkt)) <= BUFSIZE.
Proof.
  pose proof (firstn_le_length (Z.to_nat BUFSIZE) pkt).
  assert (0 <= BUFSIZE) by (now vm_compute). lia.
Qed.

Lemma wake_writes fd1 fd2 r ready x :
  filter (is_write_to x) (wake fd1 fd2 r ready) = [].
Proof. reflexivity. Qed.

Lemma wake_reads fd1 fd2 r ready x :
  count (is_read_from x) (wake fd1 fd2 r ready) = O.
Proof. reflexivity. Qed.

(** The first handle is ready and its direction leaves [a]: the turn is the
    wait, [a], and the second direction served; the loop goes on; and all
    that is written to the second handle or read from the first is in
    [a]. *)
Lemma turn_first n fd1 fd2 buf w r ready o buf1 a wa :
  fd_in_range fd1 = true -> fd_in_range fd2 = true -> fd1 <> fd2 ->
  os_select K (nfds_of fd1 fd2) (watched fd1 fd2) (os w) = ((r, ready), o) ->
  0 <= r ->
  FD_ISSET fd1 ready = true ->
  runs (relay fd1 fd2 buf) (after_select fd1 fd2 r ready o w) buf1 a wa ->
  exists b,
    (if FD_ISSET fd2 ready then relay_events fd2 fd1 b else b = []) /\
    turn_of_loop n fd1 fd2 buf w (wake fd1 fd2 r ready ++ a ++ b) /\
    filter (is_write_to fd2) (wake fd1 fd2 r ready ++ a ++ b) =
      filter (is_write_to fd2) a /\
    count (is_read_from fd1) (wake fd1 fd2 r ready ++ a ++ b) =
      count (is_read_from fd1) a.
Proof.
  intros H1 H2 Hne Es Hr F1 Ra.
  assert (Ra' : runs (serve ready fd1 fd2 buf)
                  (after_select fd1 fd2 r ready o w) buf1 a wa).
  { unfold serve. rewrite F1. exact Ra. }
  destruct (serve_runs ready fd2 fd1 buf1 wa) as (buf2 & b & wb & Rb).
  pose proof (serve_events _ _ _ _ _ _ _ _ Rb) as Sb.
  pose proof (iteration_runs_served _ _ _ _ _ _ _ _ _ _ _ _ _
                H1 H2 Es Hr Ra' Rb) as Rit.
  exists b. split; [exact Sb|]. split; [|split].
  - now apply turn_then_loop with buf2 wb.
  - rewrite !filter_app, wake_writes.
    rewrite (served_writes _ _ _ _ fd2 Sb) by congruence.
    now rewrite app_nil_r.
  - rewrite !count_app, wake_reads.
    rewrite (served_reads _ _ _ _ fd1 Sb) by congruence. simpl. lia.
Qed.

(** The second handle is ready and its direction leaves [b], after the
    first direction left [a]: the turn is the wait, [a] and [b]; the loop
    goes on; and all that is written to the first handle or read from the
    second is in [b]. *)
Lemma turn_second n fd1 fd2 buf w r ready o buf1 a wa buf2 b wb :
  fd_in_range fd1 = true -> fd_in_range fd2 = true -> fd1 <> fd2 ->
  os_select K (nfds_of fd1 fd2) (watched fd1 fd2) (os w) = ((r, ready), o) ->
  0 <= r ->
  runs (serve ready fd1 fd2 buf) (after_select fd1 fd2 r ready o w)
    buf1 a wa ->
  FD_ISSET fd2 ready = true ->
  runs (relay fd2 fd1 buf1) wa buf2 b wb ->
  (if FD_ISSET fd1 ready then relay_events fd1 fd2 a else a = []) /\
  turn_of_loop n fd1 fd2 buf w (wake fd1 fd2 r ready ++ a ++ b) /\
  filter (is_write_to fd1) (wake fd1 fd2 r ready ++ a ++ b) =
    filter (is_write_to fd1) b /\
  count (is_read_from fd2) (wake fd1 fd2 r ready ++ a ++ b) =
    count (is_read_from fd2) b.
Proof.
  intros H1 H2 Hne Es Hr Ra F2 Rb.
  assert (Rb' : runs (serve ready fd2 fd1 buf1) wa buf2 b wb).
  { unfold serve. rewrite F2. exact Rb. }
  pose proof (serve_events _ _ _ _ _ _ _ _ Ra) as Sa.
  pose proof (iteration_runs_served _ _ _ _ _ _ _ _ _ _ _ _ _
                H1 H2 Es Hr Ra Rb') as Rit.
  split; [exact Sa|]. split; [|split].
  - now apply turn_then_loop with buf2 wb.
  - rewrite !filter_app, wake_writes.
    now rewrite (served_writes _ _ _ _ fd1 Sa) by congruence.
  - rewrite !count_app, wake_reads.
    now rewrite (served_reads _ _ _ _ fd2 Sa) by congruence.
Qed.

Lemma runs_events_eq {A} (m : Prog K A) w a e e' w' :
  runs m w a e w' -> e = e' -> runs m w a e' w'.
Proof. now intros R <-. Qed.

Lemma forwarded_failed src dst data rw :
  rw < 0 ->
  forwarded src dst data rw =
  [ERead src BUFSIZE (Z.of_nat (List.length data)) data;
   EPrintf read_trace [ArgInt (Z.of_nat (List.length data)); ArgInt src];
   EWrite dst data rw; EPerror "write"].
Proof.
  intros Hr. unfold forwarded. now rewrite (proj2 (Z.ltb_lt rw 0) Hr).
Qed.

Lemma read_refused_writes src x :
  filter (is_write_to x) (read_refused src) = [].
Proof. reflexivity. Qed.

Lemma read_refused_reads src :
  count (is_read_from src) (read_refused src) = 1%nat.
Proof. unfold count. simpl. now rewrite Z.eqb_refl. Qed.

(** A wait that fails is complained of, and the next turn begins with the
    same wait, answered by what the kernel says next. *)
Lemma select_retried n fd1 fd2 buf w r ready o r' ready' o' :
  fd_in_range fd1 = true -> fd_in_range fd2 = true ->
  os_select K (nfds_of fd1 fd2) (watched fd1 fd2) (os w) = ((r, ready), o) ->
  r < 0 ->
  os_select K (nfds_of fd1 fd2) (watched fd1 fd2) o = ((r', ready'), o') ->
  exists w1 bufn more wn,
    runs (iteration fd1 fd2 buf) w buf
      (wake fd1 fd2 r ready ++ [EPerror "select"]) w1 /\
    runs (forward_loop (S (S n)) fd1 fd2 buf) w bufn
      (wake fd1 fd2 r ready ++ [EPerror "select"] ++
       wake fd1 fd2 r' ready' ++ more) wn.
Proof.
  intros H1 H2 Es Hr Es'.
  destruct (iteration_runs_refused fd1 fd2 buf w r ready o H1 H2 Es Hr)
    as (w1 & R1 & Eo).
  rewrite <- Eo in Es'.
  assert (R2 : exists buf2 tail w2,
             runs (iteration fd1 fd2 buf) w1 buf2
               (wake fd1 fd2 r' ready' ++ tail) w2).
  { destruct (Z.ltb_spec r' 0) as [Hr'|Hr'].
    - destruct (iteration_runs_refused fd1 fd2 buf w1 r' ready' o'
                  H1 H2 Es' Hr') as (w2 & R2 & _).
      now exists buf, [EPerror "select"], w2.
    - destruct (serve_runs ready' fd1 fd2 buf
                  (after_select fd1 fd2 r' ready' o' w1))
        as (b1 & a & wa & Ra).
      destruct (serve_runs ready' fd2 fd1 b1 wa) as (b2 & b & wb & Rb).
      exists b2, (a ++ b), wb.
      exact (iteration_runs_served _ _ _ _ _ _ _ _ _ _ _ _ _
               H1 H2 Es' Hr' Ra Rb). }
  destruct R2 as (buf2 & tail & w2 & R2).
  destruct (loop_runs fd1 fd2 H1 H2 n buf2 w2) as (bufn & rest & wn & Rn & _).
  exists w1, bufn, (tail ++ rest), wn. split; [exact R1|].
  simpl forward_loop.
  eapply runs_events_eq.
  - eapply runs_bind; [exact R1|].
    eapply runs_bind; [exact R2 | exact Rn].
  - rewrite <- !app_assoc. reflexivity.
Qed.

End Facts.

(** * The forwarding loop *)

(** C1.  A turn of the loop, against any kernel, in which [select] returns
    without error.  If the first handle is ready and its read brings a
    packet, the turn is: the wait; the read of the [n <= 16384] bytes [read]
    returns; their trace line; one write to the second handle of exactly
    those bytes, all of them, whose result is what the kernel answers (a
    complaint follows if that is negative); and then the second handle's
    direction, served or not.  Nothing else is written to the second handle
    in the turn and the first is not read again.  If the second handle is
    ready and its read brings a packet, the same holds with the handles
    exchanged, after whatever the first direction did.  Either way the loop
    goes on with its next turns. *)
Theorem forwarding_is_transparent
    (K : Kernel) (n : nat) (fd1 fd2 : Z) (buf : list byte) (w : World K)
    (r : Z) (ready : fd_set) (o : os_state K) :
  fd_in_range fd1 = true -> fd_in_range fd2 = true -> fd1 <> fd2 ->
  os_select K (nfds_of fd1 fd2) (watched fd1 fd2) (os w) = ((r, ready), o) ->
  0 <= r ->
  (forall pkt o1 rw o2,
     FD_ISSET fd1 ready = true ->
     os_read K fd1 BUFSIZE o = (Some pkt, o1) ->
     let data := firstn (Z.to_nat BUFSIZE) pkt in
     os_write K fd2 data o1 = (rw, o2) ->
     exists b,
       let turn := wake fd1 fd2 r ready ++ forwarded fd1 fd2 data rw ++ b in
       (if FD_ISSET fd2 ready then relay_events fd2 fd1 b else b = []) /\
       Z.of_nat (List.length data) <= BUFSIZE /\
       turn_of_loop n fd1 fd2 buf w turn /\
       filter (is_write_to fd2) turn = [EWrite fd2 data rw] /\
       count (is_read_from fd1) turn = 1%nat) /\
  (forall buf1 a wa pkt o1 rw o2,
     runs (serve ready fd1 fd2 buf) (after_select fd1 fd2 r ready o w)
       buf1 a wa ->
     FD_ISSET fd2 ready = true ->
     os_read K fd2 BUFSIZE (os wa) = (Some pkt, o1) ->
     let data := firstn (Z.to_nat BUFSIZE) pkt in
     os_write K fd1 data o1 = (rw, o2) ->
     let turn := wake fd1 fd2 r ready ++ a ++ forwarded fd2 fd1 data rw in
     (if FD_ISSET fd1 ready then relay_events fd1 fd2 a else a = []) /\
     Z.of_nat (List.length data) <= BUFSIZE /\
     turn_of_loop n fd1 fd2 buf w turn /\
     filter (is_write_to fd1) turn = [EWrite fd1 data rw] /\
     count (is_read_from fd2) turn = 1%nat).
Proof.
  intros H1 H2 Hne Es Hr. split.
  - intros pkt o1 rw o2 F1 Er data Ew. subst data.
    destruct (relay_forwards fd1 fd2 buf (after_select fd1 fd2 r ready o w)
                pkt o1 rw o2 Er Ew) as (wa & Ra).
    destruct (turn_first n _ _ _ _ _ _ _ _ _ _ H1 H2 Hne Es Hr F1 Ra)
      as (b & Sb & T & Fw & Cr).
    exists b. cbv zeta. split; [exact Sb|].
    split; [apply read_length_bounded|]. split; [exact T|]. split.
    + rewrite Fw. apply forwarded_writes.
    + rewrite Cr. apply forwarded_reads.
  - intros buf1 a wa pkt o1 rw o2 Ra F2 Er data Ew. subst data.
    destruct (relay_forwards fd2 fd1 buf1 wa pkt o1 rw o2 Er Ew)
      as (wb & Rb).
    destruct (turn_second n _ _ _ _ _ _ _ _ _ _ _ _ _
                H1 H2 Hne Es Hr Ra F2 Rb) as (Sa & T & Fw & Cr).
    cbv zeta. split; [exact Sa|].
    split; [apply read_length_bounded|]. split; [exact T|]. split.
    + rewrite Fw. apply forwarded_writes.
    + rewrite Cr. apply forwarded_reads.
Qed.

Lemma forwarding_is_transparent_witness :
  (exists b,
     let data := firstn (Z.to_nat BUFSIZE) packet in
     let turn := wake 3 4 2 both_ready ++ forwarded 3 4 data 4 ++ b in
     (if FD_ISSET 4 both_ready then relay_events 4 3 b else b = []) /\
     Z.of_nat (List.length data) <= BUFSIZE /\
     turn_of_loop 1 3 4 [] (Script.boot two_way_script) turn /\
     filter (is_write_to 4) turn = [EWrite 4 data 4] /\
     count (is_read_from 3) turn = 1%nat) /\
  (exists buf1 a wa,
     runs (serve both_ready 3 4 [])
       (after_select (K := Script.kernel) 3 4 2 both_ready
          (tl two_way_script) (Script.boot two_way_script)) buf1 a wa /\
     let data := firstn (Z.to_nat BUFSIZE) [x60] in
     let turn := wake 3 4 2 both_ready ++ a ++ forwarded 4 3 data 1 in
     (if FD_ISSET 3 both_ready then relay_events 3 4 a else a = []) /\
     Z.of_nat (List.length data) <= BUFSIZE /\
     turn_of_loop 1 3 4 [] (Script.boot two_way_script) turn /\
     filter (is_write_to 3) turn = [EWrite 3 data 1] /\
     count (is_read_from 4) turn = 1%nat).
Proof.
  destruct (forwarding_is_transparent Script.kernel 1 3 4 []
              (Script.boot two_way_script) 2 both_ready (tl two_way_script)
              eq_refl eq_refl ltac:(discriminate) eq_refl
              ltac:(discriminate)) as [HA HB].
  split.
  - exact (HA packet (skipn 2 two_way_script) 4 (skipn 3 two_way_script)
             eq_refl eq_refl eq_refl).
  - assert (Ra : exists buf1 a wa,
               runs (serve both_ready 3 4 [])
                 (after_select (K := Script.kernel) 3 4 2 both_ready
                    (tl two_way_script) (Script.boot two_way_script))
                 buf1 a wa /\
               os wa = skipn 3 two_way_script).
    { eexists _, _, _. split; [split|].
      - vm_compute. reflexivity.
      - reflexivity.
      - reflexivity. }
    destruct Ra as (buf1 & a & wa & Ra & Eo).
    exists buf1, a, wa. split; [exact Ra|].
    apply (HB buf1 a wa [x60] (skipn 4 two_way_script) 1
             (skipn 5 two_way_script) Ra eq_refl).
    + rewrite Eo. reflexivity.
    + reflexivity.
Defined.

Example two_way_trace :
  Script.events (forward_loop 2 3 4 []) two_way_script =
  Some ([x60; x00; x00; x14],
        [EFflush stdout; EFflush stderr; ESelect 5 24 2 both_ready;
         ERead 3 BUFSIZE 4 packet;
         EPrintf read_trace [ArgInt 4; ArgInt 3];
         EWrite 4 packet 4;
         ERead 4 BUFSIZE 1 [x60];
         EPrintf read_trace [ArgInt 1; ArgInt 4];
         EWrite 3 [x60] 1;
         EFflush stdout; EFflush stderr; ESelect 5 24 1 first_ready;
         ERead 3 BUFSIZE 0 [];
         EPrintf read_trace [ArgInt 0; ArgInt 3];
         EWrite 4 [] 0]).
Proof. vm_compute. reflexivity. Qed.







(** C6.  A turn of the loop, against any kernel, and what an error makes
    of it.  If [select] fails, the turn is the wait and its complaint, and
    the loop goes on: its next turn starts with the same wait, answered by
    what the kernel says next.  If the wait succeeds and a ready handle's
    read fails, that direction is the read and its complaint and nothing
    more: no write to the other handle is made anywhere in the turn.  If the
    read brings a packet and the write fails, that direction ends with the
    write and its complaint, and the write is the only one to that handle
    in the turn.  The other direction is served or not as its handle is
    ready, and in each case the loop goes on with [n] more turns, for any
    [n]. *)
Theorem loop_contains_errors
    (K : Kernel) (n : nat) (fd1 fd2 : Z) (buf : list byte) (w : World K)
    (r : Z) (ready : fd_set) (o : os_state K) :
  fd_in_range fd1 = true -> fd_in_range fd2 = true -> fd1 <> fd2 ->
  os_select K (nfds_of fd1 fd2) (watched fd1 fd2) (os w) = ((r, ready), o) ->
  (r < 0 ->
   forall r' ready' o',
     os_select K (nfds_of fd1 fd2) (watched fd1 fd2) o = ((r', ready'), o') ->
     exists w1 bufn more wn,
       runs (iteration fd1 fd2 buf) w buf
         (wake fd1 fd2 r ready ++ [EPerror "select"]) w1 /\
       runs (forward_loop (S (S n)) fd1 fd2 buf) w bufn
         (wake fd1 fd2 r ready ++ [EPerror "select"] ++
          wake fd1 fd2 r' ready' ++ more) wn) /\
  (0 <= r -> FD_ISSET fd1 ready = true ->
   (forall o1,
      os_read K fd1 BUFSIZE o = (None, o1) ->
      exists b,
        let turn :=
          wake fd1 fd2 r ready ++
          [ERead fd1 BUFSIZE (-1) []; EPerror "read"] ++ b in
        (if FD_ISSET fd2 ready then relay_events fd2 fd1 b else b = []) /\
        turn_of_loop n fd1 fd2 buf w turn /\
        filter (is_write_to fd2) turn = [] /\
        count (is_read_from fd1) turn = 1%nat) /\
   (forall pkt o1 rw o2,
      os_read K fd1 BUFSIZE o = (Some pkt, o1) ->
      let data := firstn (Z.to_nat BUFSIZE) pkt in
      os_write K fd2 data o1 = (rw, o2) -> rw < 0 ->
      exists b,
        let turn :=
          wake fd1 fd2 r ready ++
          [ERead fd1 BUFSIZE (Z.of_nat (List.length data)) data;
           EPrintf read_trace
             [ArgInt (Z.of_nat (List.length data)); ArgInt fd1];
           EWrite fd2 data rw; EPerror "write"] ++ b in
        (if FD_ISSET fd2 ready then relay_events fd2 fd1 b else b = []) /\
        turn_of_loop n fd1 fd2 buf w turn /\
        filter (is_write_to fd2) turn = [EWrite fd2 data rw])) /\
  (0 <= r -> FD_ISSET fd2 ready = true ->
   forall buf1 a wa,
     runs (serve ready fd1 fd2 buf) (after_select fd1 fd2 r ready o w)
       buf1 a wa ->
     (forall o1,
        os_read K fd2 BUFSIZE (os wa) = (None, o1) ->
        let turn :=
          wake fd1 fd2 r ready ++ a ++
          [ERead fd2 BUFSIZE (-1) []; EPerror "read"] in
        (if FD_ISSET fd1 ready then relay_events fd1 fd2 a else a = []) /\
        turn_of_loop n fd1 fd2 buf w turn /\
        filter (is_write_to fd1) turn = [] /\
        count (is_read_from fd2) turn = 1%nat) /\
     (forall pkt o1 rw o2,
        os_read K fd2 BUFSIZE (os wa) = (Some pkt, o1) ->
        let data := firstn (Z.to_nat BUFSIZE) pkt in
        os_write K fd1 data o1 = (rw, o2) -> rw < 0 ->
        let turn :=
          wake fd1 fd2 r ready ++ a ++
          [ERead fd2 BUFSIZE (Z.of_nat (List.length data)) data;
           EPrintf read_trace
             [ArgInt (Z.of_nat (List.length data)); ArgInt fd2];
           EWrite fd1 data rw; EPerror "write"] in
        (if FD_ISSET fd1 ready then relay_events fd1 fd2 a else a = []) /\
        turn_of_loop n fd1 fd2 buf w turn /\
        filter (is_write_to fd1) turn = [EWrite fd1 data rw])).
Proof.
  intros H1 H2 Hne Es. split; [|split].
  - intros Hr r' ready' o' Es'.
    exact (select_retried n fd1 fd2 buf w r ready o r' ready' o'
             H1 H2 Es Hr Es').
  - intros Hr F1. split.
    + intros o1 Er.
      destruct (relay_read_refused fd1 fd2 buf
                  (after_select fd1 fd2 r ready o w) o1 Er) as (wa & Ra).
      destruct (turn_first n _ _ _ _ _ _ _ _ _ _ H1 H2 Hne Es Hr F1 Ra)
        as (b & Sb & T & Fw & Cr).
      exists b. cbv zeta. fold (read_refused fd1).
      split; [exact Sb|]. split; [exact T|]. split.
      * rewrite Fw. apply read_refused_writes.
      * rewrite Cr. apply read_refused_reads.
    + intros pkt o1 rw o2 Er data Ew Hrw. subst data.
      destruct (relay_forwards fd1 fd2 buf
                  (after_select fd1 fd2 r ready o w) pkt o1 rw o2 Er Ew)
        as (wa & Ra).
      destruct (turn_first n _ _ _ _ _ _ _ _ _ _ H1 H2 Hne Es Hr F1 Ra)
        as (b & Sb & T & Fw & _).
      exists b. cbv zeta. rewrite <- (forwarded_failed fd1 fd2 _ rw Hrw).
      split; [exact Sb|]. split; [exact T|].
      rewrite Fw. apply forwarded_writes.
  - intros Hr F2 buf1 a wa Ra. split.
    + intros o1 Er.
      destruct (relay_read_refused fd2 fd1 buf1 wa o1 Er) as (wb & Rb).
      destruct (turn_second n _ _ _ _ _ _ _ _ _ _ _ _ _
                  H1 H2 Hne Es Hr Ra F2 Rb) as (Sa & T & Fw & Cr).
      cbv zeta. fold (read_refused fd2).
      split; [exact Sa|]. split; [exact T|]. split.
      * rewrite Fw. apply read_refused_writes.
      * rewrite Cr. apply read_refused_reads.
    + intros pkt o1 rw o2 Er data Ew Hrw. subst data.
      destruct (relay_forwards fd2 fd1 buf1 wa pkt o1 rw o2 Er Ew)
        as (wb & Rb).
      destruct (turn_second n _ _ _ _ _ _ _ _ _ _ _ _ _
                  H1 H2 Hne Es Hr Ra F2 Rb) as (Sa & T & Fw & _).
      cbv zeta. rewrite <- (forwarded_failed fd2 fd1 _ rw Hrw).
      split; [exact Sa|]. split; [exact T|].
      rewrite Fw. apply forwarded_writes.
Qed.

Lemma loop_contains_errors_witness :
  (exists w1 bufn more wn,
     runs (iteration 3 4 []) (Script.boot troubled_script) []
       (wake 3 4 (-1) 0 ++ [EPerror "select"]) w1 /\
     runs (forward_loop 4 3 4 []) (Script.boot troubled_script) bufn
       (wake 3 4 (-1) 0 ++ [EPerror "select"] ++
        wake 3 4 1 first_ready ++ more) wn) /\
  (exists b,
     let turn :=
       wake 3 4 1 first_ready ++
       [ERead 3 BUFSIZE (-1) []; EPerror "read"] ++ b in
     (if FD_ISSET 4 first_ready then relay_events 4 3 b else b = []) /\
     turn_of_loop 2 3 4 [] (Script.boot (tl troubled_script)) turn /\
     filter (is_write_to 4) turn = [] /\
     count (is_read_from 3) turn = 1%nat) /\
  (exists b,
     let data := firstn (Z.to_nat BUFSIZE) packet in
     let turn :=
       wake 3 4 1 first_ready ++
       [ERead 3 BUFSIZE (Z.of_nat (List.length data)) data;
        EPrintf read_trace [ArgInt (Z.of_nat (List.length data)); ArgInt 3];
        EWrite 4 data (-1); EPerror "write"] ++ b in
     (if FD_ISSET 4 first_ready then relay_events 4 3 b else b = []) /\
     turn_of_loop 1 3 4 [] (Script.boot (skipn 3 troubled_script)) turn /\
     filter (is_write_to 4) turn = [EWrite 4 data (-1)]).
Proof.
  split; [|split].
  - exact (proj1 (loop_contains_errors Script.kernel 2 3 4 []
                    (Script.boot troubled_script) (-1) 0
                    (tl troubled_script)
                    eq_refl eq_refl ltac:(discriminate) eq_refl)
             eq_refl 1 first_ready (skipn 2 troubled_script) eq_refl).
  - exact (proj1 (proj1 (proj2
             (loop_contains_errors Script.kernel 2 3 4 []
                (Script.boot (tl troubled_script)) 1 first_ready
                (skipn 2 troubled_script)
                eq_refl eq_refl ltac:(discriminate) eq_refl))
             ltac:(discriminate) eq_refl)
             (skipn 3 troubled_script) eq_refl).
  - exact (proj2 (proj1 (proj2
             (loop_contains_errors Script.kernel 1 3 4 []
                (Script.boot (skipn 3 troubled_script)) 1 first_ready
                (skipn 4 troubled_script)
                eq_refl eq_refl ltac:(discriminate) eq_refl))
             ltac:(discriminate) eq_refl)
             packet (skipn 5 troubled_script) (-1) (skipn 6 troubled_script)
             eq_refl eq_refl eq_refl).
Defined.

Example troubled_trace :
  Script.events (forward_loop 4 3 4 []) troubled_script =
  Some (packet,
        [EFflush stdout; EFflush stderr; ESelect 5 24 (-1) 0;
         EPerror "select";
         EFflush stdout; EFflush stderr; ESelect 5 24 1 first_ready;
         ERead 3 BUFSIZE (-1) []; EPerror "read";
         EFflush stdout; EFflush stderr; ESelect 5 24 1 first_ready;
         ERead 3 BUFSIZE 4 packet;
         EPrintf read_trace [ArgInt 4; ArgInt 3];
         EWrite 4 packet (-1); EPerror "write";
         EFflush stdout; EFflush stderr; ESelect 5 24 1 first_ready;
         ERead 3 BUFSIZE 4 packet;
         EPrintf read_trace [ArgInt 4; ArgInt 3];
         EWrite 4 packet 4]).
Proof. vm_compute. reflexivity. Qed.

(** C7.  One turn in which the wait returns without error: after the wait
    come the events [a] of the first handle's direction and then the events
    [b] of the second handle's.  A direction is served when its handle is
    reported ready and not otherwise, and served once: [a] and [b] together
    hold one read from a ready handle and none from one that is not. *)
Theorem wake_serves_first_then_second
    (K : Kernel) (fd1 fd2 : Z) (buf : list byte) (w : World K)
    (r : Z) (ready : fd_set) (o : os_state K) :
  fd_in_range fd1 = true -> fd_in_range fd2 = true -> fd1 <> fd2 ->
  os_select K (nfds_of fd1 fd2) (watched fd1 fd2) (os w) = ((r, ready), o) ->
  0 <= r ->
  exists buf' a b w',
    runs (iteration fd1 fd2 buf) w buf'
      ([EFflush stdout; EFflush stderr;
        ESelect (nfds_of fd1 fd2) (watched fd1 fd2) r ready] ++ a ++ b) w' /\
    (if FD_ISSET fd1 ready then relay_events fd1 fd2 a else a = []) /\
    (if FD_ISSET fd2 ready then relay_events fd2 fd1 b else b = []) /\
    count (is_read_from fd1) (a ++ b) =
      (if FD_ISSET fd1 ready then 1%nat else O) /\
    count (is_read_from fd2) (a ++ b) =
      (if FD_ISSET fd2 ready then 1%nat else O).
Proof.
  intros H1 H2 Hne Es Hr.
  destruct (iteration_runs_select fd1 fd2 buf w r ready o H1 H2 Es)
    as [_ Hok].
  destruct (Hok Hr) as (buf' & a & b & w' & R & Sa & Sb).
  exists buf', a, b, w'. split; [exact R|]. split; [exact Sa|].
  split; [exact Sb|].
  assert (E12 : (fd1 =? fd2) = false) by now apply Z.eqb_neq.
  assert (E21 : (fd2 =? fd1) = false) by (apply Z.eqb_neq; congruence).
  rewrite !count_app.
  destruct (FD_ISSET fd1 ready); destruct (FD_ISSET fd2 ready); subst;
    rewrite ?(relay_events_reads _ _ _ _ Sa), ?(relay_events_reads _ _ _ _ Sb),
      ?Z.eqb_refl, ?E12, ?E21; now split.
Qed.

Lemma wake_serves_first_then_second_witness :
  exists buf' a b w',
    runs (iteration 3 4 []) (Script.boot two_way_script) buf'
      ([EFflush stdout; EFflush stderr;
        ESelect (nfds_of 3 4) (watched 3 4) 2 both_ready] ++ a ++ b) w' /\
    (if FD_ISSET 3 both_ready then relay_events 3 4 a else a = []) /\
    (if FD_ISSET 4 both_ready then relay_events 4 3 b else b = []) /\
    count (is_read_from 3) (a ++ b) =
      (if FD_ISSET 3 both_ready then 1%nat else O) /\
    count (is_read_from 4) (a ++ b) =
      (if FD_ISSET 4 both_ready then 1%nat else O).
Proof.
  apply (wake_serves_first_then_second Script.kernel 3 4 []
           (Script.boot two_way_script) 2 both_ready
           (tl two_way_script));
    [reflexivity | reflexivity | discriminate | reflexivity | discriminate].
Defined.

(** C8 as stated does not hold.  Two bytes are read from handle 3 and
    written to handle 4: the one line printed names handle 3, and no line
    names handle 4, the handle of the write. *)
Lemma write_not_traced :
  exists buf evs,
    Script.events (iteration 3 4 []) one_packet_script = Some (buf, evs) /\
    In (EWrite 4 [x45; x00] 2) evs /\
    ~ writes_traced evs.
Proof.
  eexists _, _. split; [vm_compute; reflexivity|]. split.
  - simpl. auto 10.
  - intros H. destruct (H 4 [x45; x00] 2) as (fmt & args & Hin & H4 & _).
    + simpl. auto 10.
    + simpl in Hin.
      destruct Hin as [Hin|[Hin|[Hin|[Hin|[Hin|[Hin|[]]]]]]];
        try discriminate Hin.
      injection Hin as _ <-. clear H. simpl in H4. intuition discriminate.
Qed.

(** C8, amended.  Wherever the trace of the loop shows a read that returned
    [len >= 0] bytes from a handle [x], the next event is a line on stdout
    made of the byte count and the handle.  Those are the only lines the
    loop prints: each one comes directly after such a read, so a write, made
    or failed, adds no line of its own. *)
Theorem reads_traced_writes_not
    (K : Kernel) (n : nat) (fd1 fd2 : Z) (buf : list byte) (w : World K) :
  fd_in_range fd1 = true -> fd_in_range fd2 = true ->
  exists buf' evs w',
    runs (forward_loop n fd1 fd2 buf) w buf' evs w' /\
    (forall pre x c len data post,
       evs = pre ++ ERead x c len data :: post -> 0 <= len ->
       exists post',
         post = EPrintf read_trace [ArgInt len; ArgInt x] :: post') /\
    (forall pre fmt args post,
       evs = pre ++ EPrintf fmt args :: post ->
       exists pre' x c len data,
         pre = pre' ++ [ERead x c len data] /\ 0 <= len /\
         fmt = read_trace /\ args = [ArgInt len; ArgInt x]).
Proof.
  intros H1 H2.
  destruct (loop_runs fd1 fd2 H1 H2 n buf w) as (buf' & evs & w' & R & S).
  exists buf', evs, w'. split; [exact R|]. split.
  - intros pre x c len data post E Hlen.
    destruct (loop_events_at _ _ _ _ _ _ _ S E)
      as (pre0 & it & p1 & p2 & k & rest & Hit & _ & Eit & _ & ->).
    destruct (read_ok_in_iteration _ _ _ _ _ _ _ _ _ Hit Eit Hlen)
      as (_ & _ & _ & r & p2' & ->).
    now eexists.
  - intros pre fmt args post E.
    destruct (loop_events_at _ _ _ _ _ _ _ S E)
      as (pre0 & it & p1 & p2 & k & rest & Hit & _ & Eit & -> & _).
    destruct (printf_in_iteration _ _ _ _ _ _ _ Hit Eit)
      as (p1' & x & c & len & data & -> & ? & ? & ?).
    exists (pre0 ++ p1'), x, c, len, data. now rewrite app_assoc.
Qed.

Lemma reads_traced_writes_not_witness :
  exists buf' evs w',
    runs (forward_loop 2 3 4 []) (Script.boot two_way_script) buf' evs w' /\
    (forall pre x c len data post,
       evs = pre ++ ERead x c len data :: post -> 0 <= len ->
       exists post',
         post = EPrintf read_trace [ArgInt len; ArgInt x] :: post') /\
    (forall pre fmt args post,
       evs = pre ++ EPrintf fmt args :: post ->
       exists pre' x c len data,
         pre = pre' ++ [ERead x c len data] /\ 0 <= len /\
         fmt = read_trace /\ args = [ArgInt len; ArgInt x]).
Proof.
  apply (reads_traced_writes_not Script.kernel 2 3 4 []
           (Script.boot two_way_script)); reflexivity.
Defined.

(** * The allocator and startup *)

Example tun_request_template : tun_request tun_template = Some template_request.
Proof. reflexivity. Qed.

(** C4.  The control device opens as [fd] and the kernel refuses the
    TUNSETIFF request: [tun_alloc] complains, closes [fd] and only then
    returns -1; the close is the last thing it does. *)
Theorem tun_alloc_closes_refused_handle
    (K : Kernel) (dev : list byte) (w : World K)
    (fd : Z) (o : os_state K) (ifr : ifreq)
    (r : Z) (ifr' : ifreq) (o' : os_state K) :
  os_open K tun_path O_RDWR (os w) = (fd, o) -> 0 <= fd ->
  tun_request dev = Some ifr ->
  os_ioctl K fd TUNSETIFF ifr o = ((r, ifr'), o') -> r < 0 ->
  exists w',
    runs (tun_alloc dev) w (-1, dev)
      [EOpen tun_path O_RDWR fd; EIoctl fd TUNSETIFF ifr r;
       EPerror "ioctl"; EClose fd] w'.
Proof. apply tun_alloc_config_refused. Qed.

Lemma tun_alloc_closes_refused_handle_witness :
  exists w',
    runs (tun_alloc tun_template) (Script.boot config_refused_script)
      (-1, tun_template)
      [EOpen tun_path O_RDWR 3; EIoctl 3 TUNSETIFF template_request (-1);
       EPerror "ioctl"; EClose 3] w'.
Proof.
  apply (tun_alloc_closes_refused_handle Script.kernel tun_template
           (Script.boot config_refused_script)
           3 (tl config_refused_script) template_request
           (-1) template_request []);
    [reflexivity | discriminate | reflexivity | reflexivity | reflexivity].
Defined.

(** C9.  Whichever way the allocation fails, the device that does not open
    or the request that is refused, [tun_alloc] returns the same -1 and
    leaves the same buffer, and [main] returns 1, be it the first allocation
    that fails or the second. *)
Theorem alloc_failures_look_alike
    (K : Kernel) (dev : list byte) (w : World K) (kind : alloc_error) :
  alloc_fails dev w kind ->
  (exists evs w', runs (tun_alloc dev) w (-1, dev) evs w') /\
  (dev = tun_template ->
   forall fuel buf0,
   exists w', main fuel buf0 w = Some (Exited 1, w')) /\
  (dev = tun_template ->
   forall fuel buf0 w0 fd1 dev1 w1,
     tun_alloc tun_template w0 = Some ((fd1, dev1), w1) -> 0 <= fd1 ->
     w = announce dev1 w1 ->
     exists w', main fuel buf0 w0 = Some (Exited 1, w')).
Proof.
  intros F. destruct (alloc_fails_runs dev w kind F) as (evs & w' & R & _).
  split; [now exists evs, w'|]. destruct R as [R _]. split.
  - intros -> fuel buf0. exists w'. apply main_exits_on_failure.
    now apply first_allocation_fails with (-1) tun_template.
  - intros -> fuel buf0 w0 fd1 dev1 w1 H1 Hfd1 ->. exists w'.
    apply main_exits_on_failure.
    now apply second_allocation_fails with fd1 dev1 w1 (-1) tun_template.
Qed.

Lemma alloc_failures_look_alike_witness :
  ((exists evs w',
      runs (tun_alloc tun_template) (Script.boot open_refused_script)
        (-1, tun_template) evs w') /\
   (exists evs w',
      runs (tun_alloc tun_template) (Script.boot config_refused_script)
        (-1, tun_template) evs w')) /\
  (forall fuel buf0,
   exists w', main fuel buf0 (Script.boot open_refused_script)
              = Some (Exited 1, w')) /\
  (forall fuel buf0,
   exists w', main fuel buf0 (Script.boot config_refused_script)
              = Some (Exited 1, w')).
Proof.
  assert (Fo : alloc_fails tun_template (Script.boot open_refused_script)
                 DeviceOpenError).
  { apply open_refused with (-1) []; reflexivity. }
  assert (Fc : alloc_fails tun_template (Script.boot config_refused_script)
                 InterfaceConfigError).
  { apply config_refused with 3 (tl config_refused_script) template_request
      (-1) template_request [];
      [reflexivity | discriminate | reflexivity | reflexivity | reflexivity]. }
  pose proof (alloc_failures_look_alike _ _ _ _ Fo) as (Ro & Mo & _).
  pose proof (alloc_failures_look_alike _ _ _ _ Fc) as (Rc & Mc & _).
  split; [split; assumption|]. split.
  - exact (Mo eq_refl).
  - exact (Mc eq_refl).
Defined.

(** C10.  Whichever way [tun_alloc] fails it returns the caller's buffer as
    it found it.  When the device opens as [fd >= 0] and the request is
    accepted, the buffer is overwritten by [strcpy] with the name the kernel
    put in the request, nothing else happens after the request, and [fd] is
    returned.  So a buffer that comes back changed comes back with a
    non-negative handle. *)
Theorem name_buffer_changes_on_success_only
    (K : Kernel) (dev : list byte) (w : World K) :
  (forall kind,
     alloc_fails dev w kind ->
     exists evs w', runs (tun_alloc dev) w (-1, dev) evs w') /\
  (forall fd o ifr r ifr' o' dev',
     os_open K tun_path O_RDWR (os w) = (fd, o) -> 0 <= fd ->
     tun_request dev = Some ifr ->
     os_ioctl K fd TUNSETIFF ifr o = ((r, ifr'), o') -> 0 <= r ->
     strcpy dev (ifr_name ifr') = Some dev' ->
     c_str dev' = c_str (ifr_name ifr') /\
     exists w',
       runs (tun_alloc dev) w (fd, dev')
         [EOpen tun_path O_RDWR fd; EIoctl fd TUNSETIFF ifr r] w') /\
  (forall rv dev' w',
     tun_alloc dev w = Some ((rv, dev'), w') ->
     (rv < 0 -> dev' = dev) /\ (dev' <> dev -> 0 <= rv)).
Proof.
  split; [|split].
  - intros kind F.
    destruct (alloc_fails_runs dev w kind F) as (evs & w' & R & _).
    now exists evs, w'.
  - intros fd o ifr r ifr' o' dev' Eo Hfd Er Ei Hr Es. split.
    + now apply c_str_strcpy with dev.
    + now apply tun_alloc_configured with o ifr' o'.
  - intros rv dev' w' H.
    destruct (tun_alloc_returns _ _ _ _ _ H) as (evs & _ & C).
    destruct C as [(fd & ? & ? & ? & _) | [(fd & ifr & r & ? & ? & ? & ? & _)
                  | (ifr & r & ifr' & o & o' & ? & _)]].
    + split; [easy | congruence].
    + split; [easy | congruence].
    + split; [lia | easy].
Qed.

Lemma name_buffer_changes_on_success_only_witness :
  (exists evs w',
     runs (tun_alloc tun_template) (Script.boot config_refused_script)
       (-1, tun_template) evs w') /\
  c_str tun0 = bytes "tun0" /\
  exists w',
    runs (tun_alloc tun_template) (Script.boot configured_script) (3, tun0)
      [EOpen tun_path O_RDWR 3; EIoctl 3 TUNSETIFF template_request 0] w'.
Proof.
  split.
  - apply (proj1 (name_buffer_changes_on_success_only Script.kernel
                    tun_template (Script.boot config_refused_script))
             InterfaceConfigError).
    apply config_refused with 3 (tl config_refused_script) template_request
      (-1) template_request [];
      [reflexivity | discriminate | reflexivity | reflexivity | reflexivity].
  - split; [reflexivity|].
    apply (proj1 (proj2 (name_buffer_changes_on_success_only Script.kernel
                           tun_template (Script.boot configured_script)))
             3 (tl configured_script) template_request 0
             (set_ifr_name tun0 template_request) [] tun0);
      [reflexivity | discriminate | reflexivity | reflexivity | discriminate
      | reflexivity].
Defined.

(** C2 as stated does not hold.  The first allocation yields handle 3, the
    second fails: [main] returns 1 and handle 3 has not been released. *)
Lemma first_handle_not_released :
  exists evs,
    Script.events (main 1 []) second_open_refused_script
      = Some (Exited 1, evs) /\
    In (EOpen tun_path O_RDWR 3) evs /\
    ~ released 3 evs.
Proof.
  eexists. split; [vm_compute; reflexivity|]. split.
  - simpl. auto 10.
  - unfold released. simpl. intuition discriminate.
Qed.

(** C2, amended.  When startup fails, by the first allocation or by the
    second after the first succeeded, [main] returns 1 from the very state
    in which the failed [tun_alloc] returned: it does nothing more, and
    releases nothing.  The trace holds no event of the loop, and the only
    close it can hold is the last event, [tun_alloc]'s own close of the
    descriptor whose request had just been refused. *)
Theorem failed_startup_exits
    (K : Kernel) (fuel : nat) (buf0 : list byte) (w wf : World K) :
  startup_fails w wf ->
  main fuel buf0 w = Some (Exited 1, wf) /\
  exists evs,
    trace wf = trace w ++ evs /\
    count loop_event evs = O /\
    forall pre fd post,
      evs = pre ++ EClose fd :: post ->
      post = [] /\
      exists pre' ifr r,
        r < 0 /\
        pre = pre' ++ [EIoctl fd TUNSETIFF ifr r; EPerror "ioctl"].
Proof.
  intros F. split.
  - now apply main_exits_on_failure.
  - now apply startup_fails_events.
Qed.

Lemma failed_startup_exits_witness :
  exists wf,
    startup_fails (Script.boot second_config_refused_script) wf /\
    main 1 [] (Script.boot second_config_refused_script)
      = Some (Exited 1, wf) /\
    exists evs,
      trace wf = [] ++ evs /\
      count loop_event evs = O /\
      forall pre fd post,
        evs = pre ++ EClose fd :: post ->
        post = [] /\
        exists pre' ifr r,
          r < 0 /\
          pre = pre' ++ [EIoctl fd TUNSETIFF ifr r; EPerror "ioctl"].
Proof.
  assert (F : exists wf,
             startup_fails (Script.boot second_config_refused_script) wf).
  { eexists. eapply second_allocation_fails;
      [vm_compute; reflexivity | discriminate | vm_compute; reflexivity
      | reflexivity]. }
  destruct F as [wf F]. exists wf. split; [exact F|].
  exact (failed_startup_exits Script.kernel 1 [] _ wf F).
Defined.

Example second_config_refused_trace :
  Script.events (main 1 []) second_config_refused_script =
  Some (Exited 1,
        [EOpen tun_path O_RDWR 3; EIoctl 3 TUNSETIFF template_request 0;
         EPrintf created_trace [ArgStr (bytes "tun0")];
         EOpen tun_path O_RDWR 4; EIoctl 4 TUNSETIFF template_request (-1);
         EPerror "ioctl"; EClose 4]).
Proof. vm_compute. reflexivity. Qed.

(** Startup succeeds: [main] is in its loop however long it is watched. *)
Lemma main_keeps_running
    (K : Kernel) (fuel : nat) (buf0 : list byte) (w : World K)
    fd1 dev1 w1 fd2 dev2 w2 :
  tun_alloc tun_template w = Some ((fd1, dev1), w1) -> 0 <= fd1 ->
  tun_alloc tun_template (announce dev1 w1) = Some ((fd2, dev2), w2) ->
  0 <= fd2 ->
  fd1 < FD_SETSIZE -> fd2 < FD_SETSIZE ->
  exists w', main fuel buf0 w = Some (Running, w').
Proof.
  intros H1 Hfd1 H2 Hfd2 Hr1 Hr2.
  rewrite (main_enters_loop fuel buf0 w fd1 dev1 w1 fd2 dev2 w2) by assumption.
  assert (R1 : fd_in_range fd1 = true).
  { unfold fd_in_range. apply andb_true_intro. split;
      [now apply Z.leb_le | now apply Z.ltb_lt]. }
  assert (R2 : fd_in_range fd2 = true).
  { unfold fd_in_range. apply andb_true_intro. split;
      [now apply Z.leb_le | now apply Z.ltb_lt]. }
  destruct (loop_runs fd1 fd2 R1 R2 fuel buf0 (announce dev2 w2))
    as (buf' & evs & w' & [R _] & _).
  rewrite R. now exists w'.
Qed.

(** * Further properties of the allocator *)

Lemma c_str_repeat_NUL n : c_str (repeat NUL n) = [].
Proof. now destruct n. Qed.

Lemma strncpy_bytes_length src n l :
  strncpy_bytes src n = Some l -> List.length l = n.
Proof.
  revert src l; induction n as [|n IH]; intros src l.
  - destruct src; intros E; inversion E; reflexivity.
  - destruct src as [|c src]; simpl; [discriminate|].
    destruct (Byte.eqb c NUL).
    + intros E. inversion E. simpl. now rewrite repeat_length.
    + destruct (strncpy_bytes src n) as [l'|] eqn:E; [|discriminate].
      intros E'. inversion E'. simpl. f_equal. now apply IH with src.
Qed.

Lemma strncpy_bytes_c_str src n l :
  strncpy_bytes src n = Some l -> c_str l = firstn n (c_str src).
Proof.
  revert src l; induction n as [|n IH]; intros src l.
  - destruct src; intros E; inversion E; reflexivity.
  - destruct src as [|c src]; simpl; [discriminate|].
    destruct (Byte.eqb c NUL) eqn:Ec.
    + intros E. inversion E. reflexivity.
    + destruct (strncpy_bytes src n) as [l'|] eqn:E; [|discriminate].
      intros E'. inversion E'. simpl. rewrite Ec. f_equal. now apply IH.
Qed.

Lemma strncpy_bytes_defined src n :
  In NUL src \/ (n <= List.length src)%nat ->
  exists l, strncpy_bytes src n = Some l.
Proof.
  revert src; induction n as [|n IH]; intros src H.
  - destruct src; now eexists.
  - destruct src as [|c src]; simpl.
    + destruct H as [[]|H]. simpl in H. lia.
    + destruct (Byte.eqb c NUL) eqn:Ec; [now eexists|].
      destruct (IH src) as [l ->].
      * destruct H as [[->|H]|H]; [discriminate Ec | now left |].
        right. simpl in H. lia.
      * now eexists.
Qed.

(** X1.  A buffer that holds a string, or at least IFNAMSIZ bytes, gives a
    request: its flags are IFF_TUN and IFF_NO_PI and nothing else, its name
    field is IFNAMSIZ bytes long, and the string in the name field is the
    caller's string cut to IFNAMSIZ bytes (the empty string stays empty: the
    kernel is left to choose). *)
Theorem tun_request_carries_name (dev : list byte) :
  In NUL dev \/ (IFNAMSIZ <= List.length dev)%nat ->
  exists ifr,
    tun_request dev = Some ifr /\
    ifr_flags ifr = Z.lor IFF_TUN IFF_NO_PI /\
    List.length (ifr_name ifr) = IFNAMSIZ /\
    c_str (ifr_name ifr) = firstn IFNAMSIZ (c_str dev).
Proof.
  intros H. unfold tun_request.
  destruct dev as [|c dev'] eqn:Ed.
  - destruct H as [[]|H]. unfold IFNAMSIZ in H. simpl in H. lia.
  - rewrite <- Ed in *. destruct (Byte.eqb c NUL) eqn:Ec; simpl negb; cbv iota.
    + eexists. split; [reflexivity|]. split; [reflexivity|].
      split; [reflexivity|]. subst dev. simpl c_str. rewrite Ec. reflexivity.
    + destruct (strncpy_bytes_defined dev IFNAMSIZ H) as [l El].
      unfold strncpy. rewrite El.
      change (List.length
                (ifr_name (set_ifr_flags (Z.lor IFF_TUN IFF_NO_PI) ifreq_zero)))
        with IFNAMSIZ.
      rewrite Nat.leb_refl.
      change (skipn IFNAMSIZ
                (ifr_name (set_ifr_flags (Z.lor IFF_TUN IFF_NO_PI) ifreq_zero)))
        with (@nil byte).
      rewrite app_nil_r.
      eexists. split; [reflexivity|]. split; [reflexivity|]. split.
      * now apply strncpy_bytes_length with dev.
      * now apply strncpy_bytes_c_str.
Qed.

Lemma tun_request_carries_name_witness :
  exists ifr,
    tun_request tun_template = Some ifr /\
    ifr_flags ifr = Z.lor IFF_TUN IFF_NO_PI /\
    List.length (ifr_name ifr) = IFNAMSIZ /\
    c_str (ifr_name ifr) = firstn IFNAMSIZ (c_str tun_template).
Proof.
  apply (tun_request_carries_name tun_template). right. reflexivity.
Defined.

Lemma strcpy_bytes_shape src l :
  strcpy_bytes src = Some l -> l = c_str src ++ [NUL].
Proof.
  revert l; induction src as [|c src IH]; intros l; simpl; [discriminate|].
  destruct (Byte.eqb c NUL).
  - intros E. now inversion E.
  - destruct (strcpy_bytes src) as [l'|]; [|discriminate].
    intros E. inversion E. simpl. f_equal. now apply IH.
Qed.

Lemma strcpy_bytes_defined src :
  In NUL src ->
  exists l, strcpy_bytes src = Some l /\ (List.length l <= List.length src)%nat.
Proof.
  induction src as [|c src IH]; intros H; [destruct H|]. simpl.
  destruct (Byte.eqb c NUL) eqn:Ec.
  - eexists. split; [reflexivity|]. simpl. lia.
  - destruct H as [->|H]; [discriminate Ec|].
    destruct (IH H) as (l & -> & Hl). eexists. split; [reflexivity|].
    simpl. lia.
Qed.

Lemma strcpy_length dst src dst' :
  strcpy dst src = Some dst' -> List.length dst' = List.length dst.
Proof.
  unfold strcpy. destruct (strcpy_bytes src) as [l|]; [|discriminate].
  destruct (Nat.leb_spec (List.length l) (List.length dst)) as [Hl|Hl];
    [|discriminate].
  intros E. inversion E. rewrite length_app, length_skipn. lia.
Qed.

(** [strcpy] leaves what lies behind the terminator it wrote. *)
Lemma strcpy_frame dst src dst' :
  strcpy dst src = Some dst' ->
  skipn (S (List.length (c_str src))) dst' =
  skipn (S (List.length (c_str src))) dst.
Proof.
  unfold strcpy. destruct (strcpy_bytes src) as [l|] eqn:El; [|discriminate].
  destruct (_ <=? _)%nat; [|discriminate].
  intros E. inversion E. apply strcpy_bytes_shape in El.
  assert (Hl : List.length l = S (List.length (c_str src))).
  { rewrite El, length_app. simpl. lia. }
  rewrite <- Hl, skipn_app, skipn_all, Nat.sub_diag. reflexivity.
Qed.

Lemma strcpy_fits dst src :
  In NUL src -> (S (List.length (c_str src)) <= List.length dst)%nat ->
  exists dst', strcpy dst src = Some dst'.
Proof.
  intros Hn Hl. unfold strcpy.
  destruct (strcpy_bytes_defined src Hn) as (l & El & _). rewrite El.
  apply strcpy_bytes_shape in El. subst l.
  rewrite length_app. simpl List.length at 2.
  destruct (Nat.leb_spec (List.length (c_str src) + 1) (List.length dst));
    [|lia].
  now eexists.
Qed.

Lemma tun_request_defined dev :
  In NUL dev \/ (IFNAMSIZ <= List.length dev)%nat ->
  exists ifr, tun_request dev = Some ifr.
Proof.
  intros H. unfold tun_request.
  destruct dev as [|c dev'] eqn:Ed.
  - destruct H as [[]|H]. unfold IFNAMSIZ in H. simpl in H. lia.
  - rewrite <- Ed in *. destruct (Byte.eqb c NUL); simpl negb; cbv iota.
    + now eexists.
    + destruct (strncpy_bytes_defined dev IFNAMSIZ H) as [l El].
      unfold strncpy. rewrite El.
      change (List.length
                (ifr_name (set_ifr_flags (Z.lor IFF_TUN IFF_NO_PI) ifreq_zero)))
        with IFNAMSIZ.
      rewrite Nat.leb_refl. now eexists.
Qed.

(** X2.  Let the buffer hold a string, or at least IFNAMSIZ bytes.  Then it
    gives a request, and whatever the kernel returns for it, if the name the
    kernel put into the request is a terminated string that fits the buffer
    with its terminator, [tun_alloc] is defined: it reads and writes inside
    the buffer, which keeps its size, and when it returns a handle the
    buffer holds the kernel's name while every byte behind the name's
    terminator is as the caller left it. *)
Theorem tun_alloc_stays_in_buffer
    (K : Kernel) (dev : list byte) (w : World K)
    (fd : Z) (o : os_state K) :
  In NUL dev \/ (IFNAMSIZ <= List.length dev)%nat ->
  os_open K tun_path O_RDWR (os w) = (fd, o) ->
  exists ifr,
    tun_request dev = Some ifr /\
    forall r ifr' o',
      os_ioctl K fd TUNSETIFF ifr o = ((r, ifr'), o') ->
      In NUL (ifr_name ifr') ->
      (S (List.length (c_str (ifr_name ifr'))) <= List.length dev)%nat ->
      exists rv dev' w',
        tun_alloc dev w = Some ((rv, dev'), w') /\
        List.length dev' = List.length dev /\
        (0 <= rv ->
         c_str dev' = c_str (ifr_name ifr') /\
         skipn (S (List.length (c_str dev'))) dev' =
         skipn (S (List.length (c_str dev'))) dev).
Proof.
  intros Hd Eo. destruct (tun_request_defined dev Hd) as (ifr & Er).
  exists ifr. split; [exact Er|]. intros r ifr' o' Ei Hn Hl.
  destruct (Z.ltb_spec fd 0) as [Hfd|Hfd].
  - destruct (tun_alloc_open_refused dev w fd o Eo Hfd) as (w' & R & _).
    exists (-1), dev, w'. split; [exact R|]. split; [reflexivity|]. lia.
  - destruct (Z.ltb_spec r 0) as [Hr|Hr].
    + destruct (tun_alloc_config_refused dev w fd o ifr r ifr' o'
                  Eo Hfd Er Ei Hr) as (w' & R & _).
      exists (-1), dev, w'. split; [exact R|]. split; [reflexivity|]. lia.
    + destruct (strcpy_fits dev (ifr_name ifr') Hn Hl) as (dev' & Es).
      destruct (tun_alloc_configured dev w fd o ifr r ifr' o' dev'
                  Eo Hfd Er Ei Hr Es) as (w' & R & _).
      exists fd, dev', w'. split; [exact R|].
      split; [now apply strcpy_length with (ifr_name ifr')|].
      intros _. pose proof (c_str_strcpy _ _ _ Es) as Ec.
      split; [exact Ec|]. rewrite Ec. now apply strcpy_frame.
Qed.

Lemma tun_alloc_stays_in_buffer_witness :
  exists rv dev' w',
    tun_alloc short_dev (Script.boot short_script) = Some ((rv, dev'), w') /\
    List.length dev' = List.length short_dev /\
    (0 <= rv ->
     c_str dev' = c_str short_name /\
     skipn (S (List.length (c_str dev'))) dev' =
     skipn (S (List.length (c_str dev'))) short_dev).
Proof.
  destruct (tun_alloc_stays_in_buffer Script.kernel short_dev
              (Script.boot short_script) 3 (tl short_script))
    as (ifr & _ & H).
  - left. do 2 right. left. reflexivity.
  - reflexivity.
  - apply (H 0 (set_ifr_name short_name ifr) []).
    + reflexivity.
    + do 3 right. left. reflexivity.
    + cbn. lia.
Defined.

(** The five-byte buffer afterwards: the name, its terminator, and the last
    byte as it was. *)
Example short_buffer :
  Script.events (tun_alloc short_dev) short_script =
  Some ((3, bytes "ab0" ++ [NUL; NUL]),
        [EOpen tun_path O_RDWR 3;
         EIoctl 3 TUNSETIFF
           {| ifr_name := char_array IFNAMSIZ "ab"; ifr_flags := 0x1001 |} 0]).
Proof. vm_compute. reflexivity. Qed.

Example configured_buffer :
  Script.events (tun_alloc tun_template) configured_script =
  Some ((3, tun0),
        [EOpen tun_path O_RDWR 3; EIoctl 3 TUNSETIFF template_request 0]).
Proof. vm_compute. reflexivity. Qed.

(** X3.  However [tun_alloc] returns, it has opened the control device once;
    the descriptor it got is closed, once, exactly when it is a descriptor
    (not negative) and is not the one returned; and what is returned is that
    descriptor or -1, whatever negative values the kernel answered with. *)
Theorem tun_alloc_balances_descriptor
    (K : Kernel) (dev : list byte) (w : World K)
    (rv : Z) (dev' : list byte) (w' : World K) :
  tun_alloc dev w = Some ((rv, dev'), w') ->
  exists evs fd,
    trace w' = trace w ++ evs /\
    filter is_open evs = [EOpen tun_path O_RDWR fd] /\
    filter is_close evs =
      (if (0 <=? fd) && (rv <? 0) then [EClose fd] else []) /\
    (rv = fd \/ rv = -1) /\
    (0 <= rv -> rv = fd).
Proof.
  intros H. destruct (tun_alloc_returns _ _ _ _ _ H) as (evs & T & C).
  destruct C as [(fd & Hfd & -> & _ & ->)
                | [(fd & ifr & r & Hfd & Hr & -> & _ & ->)
                  | (ifr & r & ifr' & o & o' & Hrv & _ & _ & _ & _ & ->)]].
  - exists [EOpen tun_path O_RDWR fd; EPerror "open"], fd.
    split; [exact T|]. split; [reflexivity|].
    rewrite (proj2 (Z.leb_gt 0 fd) Hfd). simpl. repeat split; auto. lia.
  - exists [EOpen tun_path O_RDWR fd; EIoctl fd TUNSETIFF ifr r;
            EPerror "ioctl"; EClose fd], fd.
    split; [exact T|]. split; [reflexivity|].
    rewrite (proj2 (Z.leb_le 0 fd) Hfd). simpl. repeat split; auto. lia.
  - exists [EOpen tun_path O_RDWR rv; EIoctl rv TUNSETIFF ifr r], rv.
    split; [exact T|]. split; [reflexivity|].
    rewrite (proj2 (Z.ltb_ge rv 0) Hrv), andb_false_r. repeat split; auto.
Qed.

Lemma tun_alloc_balances_descriptor_witness :
  exists w',
    tun_alloc tun_template (Script.boot config_refused_script)
      = Some ((-1, tun_template), w') /\
    exists evs fd,
      trace w' = [] ++ evs /\
      filter is_open evs = [EOpen tun_path O_RDWR fd] /\
      filter is_close evs =
        (if (0 <=? fd) && (-1 <? 0) then [EClose fd] else []) /\
      (-1 = fd \/ -1 = -1) /\
      (0 <= -1 -> -1 = fd).
Proof.
  assert (H : exists w',
             tun_alloc tun_template (Script.boot config_refused_script)
               = Some ((-1, tun_template), w')).
  { eexists. vm_compute. reflexivity. }
  destruct H as [w' H]. exists w'. split; [exact H|].
  exact (tun_alloc_balances_descriptor Script.kernel _ _ _ _ _ H).
Defined.

(** * Further properties of main *)

(** X4.  [main] returns, with status [c], exactly when startup fails, and
    then [c] is 1 and the state is the one the failed allocation left.
    Status 0 is never returned, and nothing that happens in the loop makes
    [main] return. *)
Theorem main_returns_iff_startup_fails
    (K : Kernel) (fuel : nat) (buf0 : list byte) (w w' : World K) (c : Z) :
  main fuel buf0 w = Some (Exited c, w') <-> c = 1 /\ startup_fails w w'.
Proof.
  split.
  - intros H.
    destruct (tun_alloc tun_template w) as [[[fd1 dev1] w1]|] eqn:H1.
    + destruct (Z.ltb_spec fd1 0) as [Hfd1|Hfd1].
      * assert (F : startup_fails w w1)
          by now apply first_allocation_fails with fd1 dev1.
        rewrite (main_exits_on_failure fuel buf0 w w1 F) in H.
        inversion H; subst. now split.
      * destruct (tun_alloc tun_template (announce dev1 w1))
          as [[[fd2 dev2] w2]|] eqn:H2.
        -- destruct (Z.ltb_spec fd2 0) as [Hfd2|Hfd2].
           ++ assert (F : startup_fails w w2)
                by now apply second_allocation_fails with fd1 dev1 w1 fd2 dev2.
              rewrite (main_exits_on_failure fuel buf0 w w2 F) in H.
              inversion H; subst. now split.
           ++ rewrite (main_enters_loop fuel buf0 w fd1 dev1 w1 fd2 dev2 w2)
                in H by assumption.
              destruct (forward_loop fuel fd1 fd2 buf0 (announce dev2 w2))
                as [[? ?]|]; discriminate.
        -- unfold main, bind in H. fold tun_template in H. rewrite H1 in H.
           rewrite (proj2 (Z.ltb_ge fd1 0) Hfd1) in H.
           unfold printf, emit in H. fold (announce dev1 w1) in H.
           rewrite H2 in H. discriminate.
    + unfold main, bind in H. fold tun_template in H. rewrite H1 in H.
      discriminate.
  - intros [-> F]. now apply main_exits_on_failure.
Qed.

Lemma main_returns_iff_startup_fails_witness :
  exists w',
    main 3 [] (Script.boot second_open_refused_script) = Some (Exited 1, w') /\
    startup_fails (Script.boot second_open_refused_script) w'.
Proof.
  assert (H : exists w',
             main 3 [] (Script.boot second_open_refused_script)
               = Some (Exited 1, w')).
  { eexists. vm_compute. reflexivity. }
  destruct H as [w' H]. exists w'. split; [exact H|].
  exact (proj2 (proj1 (main_returns_iff_startup_fails Script.kernel 3 []
                         _ w' 1) H)).
Defined.

(** X5.  Both allocations succeed, with handles an [fd_set] can hold.  Then
    however long [main] is watched it is running, and what it has done is,
    in this order: opened and configured the first interface, announced it by
    the name now in its buffer, opened and configured the second with the
    same request, announced it, and then only turns of the loop over the two
    handles. *)
Theorem main_announces_then_forwards
    (K : Kernel) (fuel : nat) (buf0 : list byte) (w : World K)
    (fd1 : Z) (dev1 : list byte) (w1 : World K)
    (fd2 : Z) (dev2 : list byte) (w2 : World K) :
  tun_alloc tun_template w = Some ((fd1, dev1), w1) ->
  tun_alloc tun_template (announce dev1 w1) = Some ((fd2, dev2), w2) ->
  fd_in_range fd1 = true -> fd_in_range fd2 = true ->
  exists r1 r2 turns w',
    main fuel buf0 w = Some (Running, w') /\
    trace w' =
      trace w ++
      [EOpen tun_path O_RDWR fd1; EIoctl fd1 TUNSETIFF template_request r1;
       EPrintf created_trace [ArgStr (c_str dev1)];
       EOpen tun_path O_RDWR fd2; EIoctl fd2 TUNSETIFF template_request r2;
       EPrintf created_trace [ArgStr (c_str dev2)]] ++ turns /\
    loop_events fd1 fd2 fuel turns.
Proof.
  intros H1 H2 R1 R2.
  assert (Hfd1 : 0 <= fd1).
  { unfold fd_in_range in R1. apply andb_prop in R1 as [R1 _].
    now apply Z.leb_le. }
  assert (Hfd2 : 0 <= fd2).
  { unfold fd_in_range in R2. apply andb_prop in R2 as [R2 _].
    now apply Z.leb_le. }
  destruct (tun_alloc_returns _ _ _ _ _ H1) as (evs1 & T1 & C1).
  destruct (tun_alloc_returns _ _ _ _ _ H2) as (evs2 & T2 & C2).
  destruct C1 as [(fd & ? & ? & _) | [(fd & ifr & r & ? & ? & ? & _)
                 | (ifr1 & r1 & ifr1' & o1 & o1' & _ & _ & Er1 & _ & _ & ->)]];
    [lia|lia|].
  destruct C2 as [(fd & ? & ? & _) | [(fd & ifr & r & ? & ? & ? & _)
                 | (ifr2 & r2 & ifr2' & o2 & o2' & _ & _ & Er2 & _ & _ & ->)]];
    [lia|lia|].
  rewrite tun_request_template in Er1, Er2.
  inversion Er1; inversion Er2; subst ifr1 ifr2.
  destruct (loop_runs fd1 fd2 R1 R2 fuel buf0 (announce dev2 w2))
    as (buf' & turns & w' & [R T] & S).
  exists r1, r2, turns, w'. split; [|split; [|exact S]].
  - rewrite (main_enters_loop fuel buf0 w fd1 dev1 w1 fd2 dev2 w2)
      by assumption.
    now rewrite R.
  - rewrite T. unfold announce. cbn [trace]. rewrite T2.
    unfold announce. cbn [trace]. rewrite T1.
    rewrite <- !app_assoc. reflexivity.
Qed.

Lemma main_announces_then_forwards_witness :
  exists w1 w2 r1 r2 turns w',
    tun_alloc tun_template (Script.boot both_up_script)
      = Some ((3, tun0), w1) /\
    tun_alloc tun_template (announce tun0 w1) = Some ((4, tun1), w2) /\
    main 2 [] (Script.boot both_up_script) = Some (Running, w') /\
    trace w' =
      [] ++
      [EOpen tun_path O_RDWR 3; EIoctl 3 TUNSETIFF template_request r1;
       EPrintf created_trace [ArgStr (c_str tun0)];
       EOpen tun_path O_RDWR 4; EIoctl 4 TUNSETIFF template_request r2;
       EPrintf created_trace [ArgStr (c_str tun1)]] ++ turns /\
    loop_events 3 4 2 turns.
Proof.
  assert (H1 : exists w1,
             tun_alloc tun_template (Script.boot both_up_script)
               = Some ((3, tun0), w1)).
  { eexists. vm_compute. reflexivity. }
  destruct H1 as [w1 H1].
  assert (H2 : exists w2,
             tun_alloc tun_template (announce tun0 w1)
               = Some ((4, tun1), w2)).
  { revert H1. vm_compute. intros H1. inversion H1. eexists. reflexivity. }
  destruct H2 as [w2 H2].
  destruct (main_announces_then_forwards Script.kernel 2 [] _ 3 tun0 w1
              4 tun1 w2 H1 H2 eq_refl eq_refl)
    as (r1 & r2 & turns & w' & M & T & S).
  exists w1, w2, r1, r2, turns, w'.
  split; [exact H1|]. split; [exact H2|]. split; [exact M|].
  split; [exact T | exact S].
Defined.

Example both_up_trace :
  Script.events (main 2 []) both_up_script =
  Some (Running,
        [EOpen tun_path O_RDWR 3; EIoctl 3 TUNSETIFF template_request 0;
         EPrintf created_trace [ArgStr (bytes "tun0")];
         EOpen tun_path O_RDWR 4; EIoctl 4 TUNSETIFF template_request 0;
         EPrintf created_trace [ArgStr (bytes "tun1")];
         EFflush stdout; EFflush stderr; ESelect 5 24 2 both_ready;
         ERead 3 BUFSIZE 4 packet;
         EPrintf read_trace [ArgInt 4; ArgInt 3];
         EWrite 4 packet 4;
         ERead 4 BUFSIZE 1 [x60];
         EPrintf read_trace [ArgInt 1; ArgInt 4];
         EWrite 3 [x60] 1;
         EFflush stdout; EFflush stderr; ESelect 5 24 1 first_ready;
         ERead 3 BUFSIZE 0 [];
         EPrintf read_trace [ArgInt 0; ArgInt 3];
         EWrite 4 [] 0]).
Proof. vm_compute. reflexivity. Qed.

(** * Further properties of the forwarding loop *)

(** X6.  With the 16384 bytes of [buf] under it, the loop runs any number
    of turns and the buffer is 16384 bytes long afterwards: no read, of any
    packet the kernel may hold, stores a byte outside [buf]. *)
Theorem loop_keeps_buffer_size
    (K : Kernel) (n : nat) (fd1 fd2 : Z) (buf : list byte) (w : World K) :
  fd_in_range fd1 = true -> fd_in_range fd2 = true ->
  List.length buf = Z.to_nat BUFSIZE ->
  exists buf' evs w',
    runs (forward_loop n fd1 fd2 buf) w buf' evs w' /\
    List.length buf' = Z.to_nat BUFSIZE.
Proof.
  intros H1 H2 Hb.
  destruct (loop_runs fd1 fd2 H1 H2 n buf w) as (buf' & evs & w' & R & _).
  exists buf', evs, w'. split; [exact R|].
  destruct R as [R _]. rewrite <- Hb.
  apply (loop_buffer_length fd1 fd2 n buf w buf' w'); [|exact R].
  rewrite Hb. apply Nat.le_refl.
Qed.

Lemma loop_keeps_buffer_size_witness :
  exists buf' evs w',
    runs (forward_loop 2 3 4 (repeat x00 (Z.to_nat BUFSIZE)))
      (Script.boot two_way_script) buf' evs w' /\
    List.length buf' = Z.to_nat BUFSIZE.
Proof.
  apply (loop_keeps_buffer_size Script.kernel 2 3 4
           (repeat x00 (Z.to_nat BUFSIZE)) (Script.boot two_way_script));
    [reflexivity | reflexivity | apply repeat_length].
Defined.

(** X7.  On the trace of any number of turns there are as many writes as
    reads that succeeded, and as many lines on stdout; and every write is
    the one that follows a read and its line, carries the bytes of that read
    and goes to the other handle.  The loop writes nothing it did not just
    read, and nothing twice. *)
Theorem loop_writes_what_it_read
    (K : Kernel) (n : nat) (fd1 fd2 : Z) (buf : list byte) (w : World K) :
  fd_in_range fd1 = true -> fd_in_range fd2 = true ->
  exists buf' evs w',
    runs (forward_loop n fd1 fd2 buf) w buf' evs w' /\
    count is_write evs = count is_read_ok evs /\
    count is_printf evs = count is_read_ok evs /\
    forall pre y data r post,
      evs = pre ++ EWrite y data r :: post ->
      exists pre' x,
        pre = pre' ++
              [ERead x BUFSIZE (Z.of_nat (List.length data)) data;
               EPrintf read_trace
                 [ArgInt (Z.of_nat (List.length data)); ArgInt x]] /\
        y = peer fd1 fd2 x.
Proof.
  intros H1 H2.
  destruct (loop_runs fd1 fd2 H1 H2 n buf w) as (buf' & evs & w' & R & S).
  exists buf', evs, w'. split; [exact R|].
  destruct (loop_events_counts _ _ _ _ S) as [Cw Cp].
  split; [exact Cw|]. split; [exact Cp|].
  intros pre y data r post E.
  destruct (loop_events_at _ _ _ _ _ _ _ S E)
    as (pre0 & it & p1 & p2 & k & rest & Hit & Hrest & Eit & -> & ->).
  destruct (write_in_iteration _ _ _ _ _ _ _ _ _ _ Hit Hrest Eit)
    as ((p1' & x & -> & ->) & _ & _).
  exists (pre0 ++ p1'), x. now rewrite app_assoc.
Qed.

Lemma loop_writes_what_it_read_witness :
  exists buf' evs w',
    runs (forward_loop 4 3 4 []) (Script.boot troubled_script) buf' evs w' /\
    count is_write evs = count is_read_ok evs /\
    count is_printf evs = count is_read_ok evs /\
    forall pre y data r post,
      evs = pre ++ EWrite y data r :: post ->
      exists pre' x,
        pre = pre' ++
              [ERead x BUFSIZE (Z.of_nat (List.length data)) data;
               EPrintf read_trace
                 [ArgInt (Z.of_nat (List.length data)); ArgInt x]] /\
        y = peer 3 4 x.
Proof.
  apply (loop_writes_what_it_read Script.kernel 4 3 4 []
           (Script.boot troubled_script)); reflexivity.
Defined.

(** X8.  On the trace of any number of turns every read and every write is
    on one of the two handles, and there is no open, no ioctl and no close:
    the loop leaves both handles open and touches no other descriptor. *)
Theorem loop_touches_only_its_handles
    (K : Kernel) (n : nat) (fd1 fd2 : Z) (buf : list byte) (w : World K) :
  fd_in_range fd1 = true -> fd_in_range fd2 = true ->
  exists buf' evs w',
    runs (forward_loop n fd1 fd2 buf) w buf' evs w' /\
    forallb (on_handles fd1 fd2) evs = true.
Proof.
  intros H1 H2.
  destruct (loop_runs fd1 fd2 H1 H2 n buf w) as (buf' & evs & w' & R & S).
  exists buf', evs, w'. split; [exact R|].
  now apply loop_events_on_handles with n.
Qed.

Lemma loop_touches_only_its_handles_witness :
  exists buf' evs w',
    runs (forward_loop 4 3 4 []) (Script.boot troubled_script) buf' evs w' /\
    forallb (on_handles 3 4) evs = true.
Proof.
  apply (loop_touches_only_its_handles Script.kernel 4 3 4 []
           (Script.boot troubled_script)); reflexivity.
Defined.

(** X9.  On the trace of any number of turns every complaint on stderr
    comes directly after a call that failed, and names that call: "select"
    after a failed wait, "read" after a failed read, "write" after a failed
    write.  The loop reports no error that did not happen. *)
Theorem loop_complains_of_failures_only
    (K : Kernel) (n : nat) (fd1 fd2 : Z) (buf : list byte) (w : World K) :
  fd_in_range fd1 = true -> fd_in_range fd2 = true ->
  exists buf' evs w',
    runs (forward_loop n fd1 fd2 buf) w buf' evs w' /\
    forall pre s post,
      evs = pre ++ EPerror s :: post ->
      (exists pre' nf st r rd,
         r < 0 /\ s = "select"%string /\
         pre = pre' ++ [ESelect nf st r rd]) \/
      (exists pre' x c r d,
         r < 0 /\ s = "read"%string /\ pre = pre' ++ [ERead x c r d]) \/
      (exists pre' y d r,
         r < 0 /\ s = "write"%string /\ pre = pre' ++ [EWrite y d r]).
Proof.
  intros H1 H2.
  destruct (loop_runs fd1 fd2 H1 H2 n buf w) as (buf' & evs & w' & R & S).
  exists buf', evs, w'. split; [exact R|].
  intros pre s post E.
  destruct (loop_events_at _ _ _ _ _ _ _ S E)
    as (pre0 & it & p1 & p2 & k & rest & Hit & _ & Eit & -> & _).
  destruct (perror_in_iteration _ _ _ _ _ _ Hit Eit)
    as [(p1' & nf & st & r & rd & Hr & Hs & ->)
       | [(p1' & x & c & r & d & Hr & Hs & ->)
         | (p1' & y & d & r & Hr & Hs & ->)]].
  - left. exists (pre0 ++ p1'), nf, st, r, rd. now rewrite app_assoc.
  - right; left. exists (pre0 ++ p1'), x, c, r, d. now rewrite app_assoc.
  - right; right. exists (pre0 ++ p1'), y, d, r. now rewrite app_assoc.
Qed.

Lemma loop_complains_of_failures_only_witness :
  exists buf' evs w',
    runs (forward_loop 4 3 4 []) (Script.boot troubled_script) buf' evs w' /\
    forall pre s post,
      evs = pre ++ EPerror s :: post ->
      (exists pre' nf st r rd,
         r < 0 /\ s = "select"%string /\
         pre = pre' ++ [ESelect nf st r rd]) \/
      (exists pre' x c r d,
         r < 0 /\ s = "read"%string /\ pre = pre' ++ [ERead x c r d]) \/
      (exists pre' y d r,
         r < 0 /\ s = "write"%string /\ pre = pre' ++ [EWrite y d r]).
Proof.
  apply (loop_complains_of_failures_only Script.kernel 4 3 4 []
           (Script.boot troubled_script)); reflexivity.
Defined.

Lemma testbit_one k : Z.testbit 1 k = (k =? 0).
Proof. now destruct k. Qed.

Lemma watched_testbit fd1 fd2 i :
  0 <= i -> Z.testbit (watched fd1 fd2) i = (i =? fd1) || (i =? fd2).
Proof.
  intros Hi. unfold watched, FD_ZERO.
  rewrite !Z.lor_spec, Z.bits_0, !Z.shiftl_spec, !testbit_one by assumption.
  simpl orb.
  destruct (Z.eqb_spec (i - fd1) 0), (Z.eqb_spec i fd1); try lia;
    destruct (Z.eqb_spec (i - fd2) 0), (Z.eqb_spec i fd2); try lia;
    reflexivity.
Qed.

Lemma nfds_of_max fd1 fd2 : nfds_of fd1 fd2 = Z.max fd1 fd2 + 1.
Proof.
  unfold nfds_of. rewrite Z.gtb_ltb.
  destruct (Z.ltb_spec fd1 fd2); lia.
Qed.

(** X10.  On the trace of any number of turns every readiness wait comes
    directly after the flush of stdout and of stderr, asks about exactly the
    two handles (the set is built anew each turn, whatever the last wait
    left in it), and passes one more than the larger handle as [nfds]. *)
Theorem loop_waits_on_both_handles
    (K : Kernel) (n : nat) (fd1 fd2 : Z) (buf : list byte) (w : World K) :
  fd_in_range fd1 = true -> fd_in_range fd2 = true ->
  exists buf' evs w',
    runs (forward_loop n fd1 fd2 buf) w buf' evs w' /\
    forall pre nf s r rd post,
      evs = pre ++ ESelect nf s r rd :: post ->
      nf = Z.max fd1 fd2 + 1 /\
      (forall i, 0 <= i -> Z.testbit s i = (i =? fd1) || (i =? fd2)) /\
      exists pre', pre = pre' ++ [EFflush stdout; EFflush stderr].
Proof.
  intros H1 H2.
  destruct (loop_runs fd1 fd2 H1 H2 n buf w) as (buf' & evs & w' & R & S).
  exists buf', evs, w'. split; [exact R|].
  intros pre nf s r rd post E.
  destruct (loop_events_at _ _ _ _ _ _ _ S E)
    as (pre0 & it & p1 & p2 & k & rest & Hit & _ & Eit & -> & _).
  destruct (select_place_in_iteration _ _ _ _ _ _ _ _ _ Hit Eit)
    as (-> & -> & ->).
  split; [apply nfds_of_max|]. split.
  - intros i Hi. now apply watched_testbit.
  - now exists pre0.
Qed.

Lemma loop_waits_on_both_handles_witness :
  exists buf' evs w',
    runs (forward_loop 4 3 4 []) (Script.boot troubled_script) buf' evs w' /\
    forall pre nf s r rd post,
      evs = pre ++ ESelect nf s r rd :: post ->
      nf = Z.max 3 4 + 1 /\
      (forall i, 0 <= i -> Z.testbit s i = (i =? 3) || (i =? 4)) /\
      exists pre', pre = pre' ++ [EFflush stdout; EFflush stderr].
Proof.
  apply (loop_waits_on_both_handles Script.kernel 4 3 4 []
           (Script.boot troubled_script)); reflexivity.
Defined.

(** X11.  The first allocation succeeds and the second fails: by then the
    first interface has been opened, configured and announced on stdout
    under its name, and it is announced once; what follows is the failed
    allocation alone, which prints no line, and [main] returns 1. *)
Theorem second_failure_follows_first_announcement
    (K : Kernel) (fuel : nat) (buf0 : list byte) (w : World K)
    (fd1 : Z) (dev1 : list byte) (w1 : World K)
    (fd2 : Z) (dev2 : list byte) (w2 : World K) :
  tun_alloc tun_template w = Some ((fd1, dev1), w1) -> 0 <= fd1 ->
  tun_alloc tun_template (announce dev1 w1) = Some ((fd2, dev2), w2) ->
  fd2 < 0 ->
  exists r1 evs2,
    main fuel buf0 w = Some (Exited 1, w2) /\
    trace w2 =
      trace w ++
      [EOpen tun_path O_RDWR fd1; EIoctl fd1 TUNSETIFF template_request r1;
       EPrintf created_trace [ArgStr (c_str dev1)]] ++ evs2 /\
    forallb alloc_event evs2 = true /\
    count is_printf evs2 = O.
Proof.
  intros H1 Hfd1 H2 Hfd2.
  destruct (tun_alloc_returns _ _ _ _ _ H1) as (evs1 & T1 & C1).
  destruct (tun_alloc_returns _ _ _ _ _ H2) as (evs2 & T2 & C2).
  destruct C1 as [(fd & ? & ? & _) | [(fd & ifr & r & ? & ? & ? & _)
                 | (ifr1 & r1 & ifr1' & o1 & o1' & _ & _ & Er1 & _ & _ & ->)]];
    [lia|lia|].
  rewrite tun_request_template in Er1. inversion Er1; subst ifr1.
  exists r1, evs2. split; [|split; [|split]].
  - apply main_exits_on_failure.
    now apply second_allocation_fails with fd1 dev1 w1 fd2 dev2.
  - rewrite T2. unfold announce. cbn [trace]. rewrite T1.
    rewrite <- !app_assoc. reflexivity.
  - destruct C2 as [(fd & _ & _ & _ & ->) | [(fd & ifr & r & _ & _ & _ & _ & ->)
                   | (ifr & r & ifr' & o & o' & ? & _)]];
      [reflexivity | reflexivity | lia].
  - destruct C2 as [(fd & _ & _ & _ & ->) | [(fd & ifr & r & _ & _ & _ & _ & ->)
                   | (ifr & r & ifr' & o & o' & ? & _)]];
      [reflexivity | reflexivity | lia].
Qed.

Lemma second_failure_follows_first_announcement_witness :
  exists w1 w2 r1 evs2,
    tun_alloc tun_template (Script.boot second_config_refused_script)
      = Some ((3, tun0), w1) /\
    tun_alloc tun_template (announce tun0 w1)
      = Some ((-1, tun_template), w2) /\
    main 1 [] (Script.boot second_config_refused_script)
      = Some (Exited 1, w2) /\
    trace w2 =
      [] ++
      [EOpen tun_path O_RDWR 3; EIoctl 3 TUNSETIFF template_request r1;
       EPrintf created_trace [ArgStr (c_str tun0)]] ++ evs2 /\
    forallb alloc_event evs2 = true /\
    count is_printf evs2 = O.
Proof.
  assert (H1 : exists w1,
             tun_alloc tun_template
               (Script.boot second_config_refused_script)
               = Some ((3, tun0), w1)).
  { eexists. vm_compute. reflexivity. }
  destruct H1 as [w1 H1].
  assert (H2 : exists w2,
             tun_alloc tun_template (announce tun0 w1)
               = Some ((-1, tun_template), w2)).
  { revert H1. vm_compute. intros H1. inversion H1. eexists. reflexivity. }
  destruct H2 as [w2 H2].
  destruct (second_failure_follows_first_announcement Script.kernel 1 [] _
              3 tun0 w1 (-1) tun_template w2 H1 ltac:(discriminate)
              H2 eq_refl)
    as (r1 & evs2 & M & T & A & P).
  exists w1, w2, r1, evs2.
  split; [exact H1|]. split; [exact H2|]. split; [exact M|].
  split; [exact T|]. split; [exact A | exact P].
Defined.
